(** * Reflect AI: the interview orchestration loop

    A shallow embedding of the voice interview loop of the repository:
    the reducer and the asynchronous control loop of the [useInterview]
    hook, the words-per-minute computation of [app/lib/speech.ts], the
    capture promise of [useSpeechRecognition] and the two variants of the
    [/api/chat] route handler.

    Conventions.
    - A JavaScript string is a [string] whose characters are code units in
      the range 0..255.
    - The duration of a capture and the pacing computed from it are
      IEEE 754 binary64 floats, [Js.Number], with the operations of the
      library's [SpecFloat]: division and multiplication round to the
      nearest float, and [NaN] and the infinities are values.  The scores
      of the metrics and the numbers of a JSON text (taken within the
      range of floats) are exact rationals [Q]: the handlers copy,
      compare, round and clamp them, all of which is exact; only the
      average of the summary divides them, and it is modelled exactly.
    - Asynchronous code is cut at its [await]s: every piece of synchronous
      code between two suspension points is a computation in a small state
      monad over the [World], and the host event loop is a list of
      [Event]s that calls the two commands or settles a pending promise. *)

From Stdlib Require Import String Ascii List ZArith QArith Qround Bool Lia.
From Stdlib Require Import DecimalString Qminmax Qpower Lqa SpecFloat.
Import ListNotations.

Set Warnings "-register-all,-at-level-200-changed".

Local Close Scope Q_scope.
Local Open Scope string_scope.
Local Open Scope list_scope.

(* ================================================================== *)
(** ** JavaScript primitives used by the sources *)

Module Js.

(** [\s] and the characters removed by [String.prototype.trim], within
    the code units 0..255: TAB, LF, VT, FF, CR, SPACE and NBSP. *)
Definition is_space (c : ascii) : bool :=
  match N_of_ascii c with
  | 9%N | 10%N | 11%N | 12%N | 13%N | 32%N | 160%N => true
  | _ => false
  end.

Fixpoint trimStart (s : list ascii) : list ascii :=
  match s with
  | [] => []
  | c :: s' => if is_space c then trimStart s' else s
  end.

Definition trimEnd (s : list ascii) : list ascii :=
  rev (trimStart (rev s)).

(** [s.trim()] *)
Definition trim (s : list ascii) : list ascii := trimEnd (trimStart s).

(** [s.split(/\s+/)]: [cur] is the piece being read (reversed) and
    [in_sep] tells that the previous character belonged to a separator.
    A separator at either end yields an empty piece there, and the empty
    string yields one empty piece. *)
Fixpoint split_spaces_from (cur : list ascii) (in_sep : bool)
    (s : list ascii) : list (list ascii) :=
  match s with
  | [] => [rev cur]
  | c :: s' =>
      if is_space c then
        if in_sep then split_spaces_from [] true s'
        else rev cur :: split_spaces_from [] true s'
      else split_spaces_from (c :: cur) false s'
  end.

Definition split_spaces (s : list ascii) : list (list ascii) :=
  split_spaces_from [] false s.

(** Truthiness of a string: the empty string is falsy. *)
Definition truthy (s : list ascii) : bool :=
  match s with [] => false | _ :: _ => true end.

(** [Math.round]: the nearest integer, halves towards plus infinity. *)
Definition round (x : Q) : Z := Qfloor (x + (1 # 2))%Q.

(** [arr.slice(-n)] *)
Definition slice_last {A : Type} (n : nat) (l : list A) : list A :=
  skipn (length l - n) l.

(** *** Numbers: binary64 floats *)

Definition Number : Type := spec_float.

(** The float of a whole number (exact up to 2^53). *)
Definition ofZ (z : Z) : Number := binary_normalize 53 1024 z 0 false.

(** The whole number a float is, if it is one (this prints numerals). *)
Definition toZ (x : Number) : option Z :=
  match x with
  | S754_zero false => Some 0%Z
  | S754_finite s m e =>
      if (e <=? 0)%Z then
        let z := Z.shiftr (Zpos m) (- e) in
        if Z.eqb (Z.shiftl z (- e)) (Zpos m)
        then Some (if s then (- z)%Z else z)
        else None
      else None
  | _ => None
  end.

(** The value of a finite float; 0 for the others. *)
Definition toQ (x : Number) : Q :=
  match x with
  | S754_finite s m e =>
      ((if s then - (1) else 1) * inject_Z (Zpos m) * Qpower 2 e)%Q
  | _ => 0%Q
  end.

(** The float nearest to a rational, as [JSON.parse] reads a number. *)
Definition ofQ (q : Q) : Number :=
  match Qnum q with
  | Z0 => S754_zero false
  | Zpos n => SFdiv 53 1024 (S754_finite false n 0)
                (S754_finite false (Qden q) 0)
  | Zneg n => SFdiv 53 1024 (S754_finite true n 0)
                (S754_finite false (Qden q) 0)
  end.

(** [x / y], [x * y], [x <= y] and [isNaN(x)] *)
Definition div : Number -> Number -> Number := SFdiv 53 1024.

Definition mul : Number -> Number -> Number := SFmul 53 1024.

Definition leb : Number -> Number -> bool := SFleb.

Definition ltb : Number -> Number -> bool := SFltb.

Definition isNaN (x : Number) : bool :=
  match x with S754_nan => true | _ => false end.

(** [Math.round(x)] on a float: [NaN], the infinities, the zeros and the
    whole numbers are returned as they are; otherwise the result is
    floor(x + 1/2), with the sign of [x] when that is zero. *)
Definition Math_round (x : Number) : Number :=
  match x with
  | S754_finite s m e =>
      if (0 <=? e)%Z then x
      else
        let n := round (toQ x) in
        if (n =? 0)%Z then S754_zero s else ofZ n
  | _ => x
  end.

End Js.

Declare Scope number_scope.
Delimit Scope number_scope with number.
Bind Scope number_scope with Js.Number.
Number Notation spec_float Js.ofZ Js.toZ : number_scope.

(* ================================================================== *)
(** ** types/index.ts *)

Inductive Phase : Type := idle | listening | processing | speaking.

Inductive Role : Type := user | assistant | system.

Record Message : Type := { role : Role; content : string }.

Inductive Tone : Type := professional | uncertain | casual | aggressive.

Record AnalysisMetrics : Type := {
  confidence_score : Q;
  pacing_wpm : Js.Number;
  clarity_score : Q;
  tone : Tone;
  feedback_text : string
}.

Record APIResponse : Type := { reply : string; analysis : AnalysisMetrics }.

Record InterviewState : Type := {
  phase : Phase;
  transcript : string;
  history : list Message;
  stats : AnalysisMetrics;
  allStats : list AnalysisMetrics;
  error : option string
}.

Definition EMPTY_METRICS : AnalysisMetrics :=
  {| confidence_score := 0%Q; pacing_wpm := 0; clarity_score := 0%Q;
     tone := professional; feedback_text := "" |}.


Definition is_user (m : Message) : bool :=
  match role m with user => true | _ => false end.


(* ================================================================== *)
(** ** app/lib/speech.ts: calculateWPM *)

(** [transcript.trim().split(/\s+/).length] *)
Definition wordCount (transcript : string) : nat :=
  length (Js.split_spaces (Js.trim (list_ascii_of_string transcript))).

(** [!transcript.trim()] *)
Definition blank (transcript : string) : bool :=
  negb (Js.truthy (Js.trim (list_ascii_of_string transcript))).

Definition calculateWPM (transcript : string) (durationSeconds : Js.Number)
    : Js.Number :=
  if blank transcript || Js.leb durationSeconds 0 then 0
  else
    Js.Math_round
      (Js.mul (Js.div (Js.ofZ (Z.of_nat (wordCount transcript)))
                 durationSeconds) 60).

(* ================================================================== *)
(** ** useInterview: the reducer *)

Inductive Action : Type :=
| START_LISTENING
| UPDATE_TRANSCRIPT (transcript : string)
| START_PROCESSING (transcript : string)
| START_SPEAKING
| RECEIVE_RESPONSE (reply : string) (analysis : AnalysisMetrics)
                   (isOpening : bool)
| FINISH_SPEAKING
| SET_ERROR (error : string)
| RESET.

Definition initialState : InterviewState :=
  {| phase := idle; transcript := ""; history := [];
     stats := EMPTY_METRICS; allStats := []; error := None |}.

Definition reducer (state : InterviewState) (action : Action)
    : InterviewState :=
  match action with
  | START_LISTENING =>
      {| phase := listening; transcript := ""; history := history state;
         stats := stats state; allStats := allStats state; error := None |}
  | UPDATE_TRANSCRIPT t =>
      {| phase := phase state; transcript := t; history := history state;
         stats := stats state; allStats := allStats state;
         error := error state |}
  | START_PROCESSING t =>
      {| phase := processing; transcript := transcript state;
         history := history state ++ [{| role := user; content := t |}];
         stats := stats state; allStats := allStats state;
         error := error state |}
  | RECEIVE_RESPONSE r a opening =>
      {| phase := phase state; transcript := transcript state;
         history := history state ++ [{| role := assistant; content := r |}];
         stats := a;
         allStats := if opening then allStats state
                     else allStats state ++ [a];
         error := error state |}
  | START_SPEAKING =>
      {| phase := speaking; transcript := transcript state;
         history := history state; stats := stats state;
         allStats := allStats state; error := error state |}
  | FINISH_SPEAKING =>
      {| phase := idle; transcript := transcript state;
         history := history state; stats := stats state;
         allStats := allStats state; error := error state |}
  | SET_ERROR e =>
      {| phase := idle; transcript := transcript state;
         history := history state; stats := stats state;
         allStats := allStats state; error := Some e |}
  | RESET => initialState
  end.

Definition OPENING_QUESTION : string :=
  "Welcome to your mock interview. Let's start with a classic: Tell me about a time you faced a significant challenge at work. What happened, and how did you handle it?".

(** The sentence that stands for a silent answer in the request. *)
Definition SILENT_ANSWER : string :=
  "(The user was silent and didn't respond.)".


(* ================================================================== *)
(** ** useInterview: the control loop

    [startInterview] and [runLoop] are asynchronous functions.  Each call
    of [startInterview] that passes its guard is one loop instance; while
    it waits for a promise it is parked in the world as a [Suspension],
    which is the place of the [await] together with the local variables
    that are live there. *)

(** A value caught by a [catch] clause. *)
Inductive Thrown : Type :=
| ErrorObject (message : string)
| OtherValue.

(** [err instanceof Error ? err.message : fallback] *)
Definition message_or (err : Thrown) (fallback : string) : string :=
  match err with
  | ErrorObject m => m
  | OtherValue => fallback
  end.

Inductive Suspension : Type :=
| AwaitOpening                  (* startInterview: await speak(OPENING_QUESTION) *)
| AwaitCapture                  (* runLoop: await startListening() *)
| AwaitFetch (finalTranscript : string) (duration : Js.Number)
                                (* runLoop: await fetch('/api/chat', ...) *)
| AwaitErrorBody (status : Z)   (* runLoop: await res.json(), !res.ok branch *)
| AwaitBody (finalTranscript : string) (duration : Js.Number)
                                (* runLoop: const data = await res.json() *)
| AwaitReply.                   (* runLoop: await speak(data.reply) *)

(** How a pending promise settles. *)
Inductive Settlement : Type :=
| SpeakEnded
| SpeakFailed (err : Thrown)
| CaptureEnded (transcript : string) (duration : Js.Number)
| CaptureFailed (err : Thrown)
| FetchResponded (status : Z)
| FetchFailed (err : Thrown)
| ErrorBodyRead (error : option string)
| BodyRead (data : APIResponse)
| BodyFailed (err : Thrown).

Record World : Type := {
  state : InterviewState;          (* the useReducer state *)
  isRunningRef : bool;             (* isRunningRef.current *)
  historyRef : list Message;       (* historyRef.current *)
  fillerPlaying : bool;            (* speech.ts: currentAudio !== null *)
  loops : list Suspension;         (* the parked loop instances *)
  dispatched : list (InterviewState * Action);
                                   (* every dispatch with the state it was
                                      applied to, newest first *)
  requests : list (list Message);  (* the message lists posted, newest first *)
  spoken : list string             (* the texts handed to speak, newest first *)
}.

Definition initialWorld : World :=
  {| state := initialState; isRunningRef := false; historyRef := [];
     fillerPlaying := false; loops := []; dispatched := [];
     requests := []; spoken := [] |}.

(** Synchronous code: a state monad over the world. *)
Definition M (A : Type) : Type := World -> A * World.

Definition ret {A : Type} (a : A) : M A := fun w => (a, w).

Definition bind {A B : Type} (c : M A) (k : A -> M B) : M B :=
  fun w => let (a, w') := c w in k a w'.

Notation "x <- c ;; k" := (bind c (fun x => k))
  (at level 61, c at next level, right associativity).
Notation "c ;; k" := (bind c (fun _ => k))
  (at level 61, right associativity).

Definition dispatch (a : Action) : M unit := fun w =>
  (tt, {| state := reducer (state w) a; isRunningRef := isRunningRef w;
          historyRef := historyRef w; fillerPlaying := fillerPlaying w;
          loops := loops w; dispatched := (state w, a) :: dispatched w;
          requests := requests w; spoken := spoken w |}).

Definition isRunning : M bool := fun w => (isRunningRef w, w).

Definition setRunning (b : bool) : M unit := fun w =>
  (tt, {| state := state w; isRunningRef := b;
          historyRef := historyRef w; fillerPlaying := fillerPlaying w;
          loops := loops w; dispatched := dispatched w;
          requests := requests w; spoken := spoken w |}).

Definition setFiller (b : bool) : M unit := fun w =>
  (tt, {| state := state w; isRunningRef := isRunningRef w;
          historyRef := historyRef w; fillerPlaying := b;
          loops := loops w; dispatched := dispatched w;
          requests := requests w; spoken := spoken w |}).

(** [playAudio('/audio/thinking.mp3')], not awaited. *)
Definition playAudio : M unit := setFiller true.

Definition stopAudio : M unit := setFiller false.

(** The call of [speak(text)]; its promise is awaited by the caller. *)
Definition speak (text : string) : M unit := fun w =>
  (tt, {| state := state w; isRunningRef := isRunningRef w;
          historyRef := historyRef w; fillerPlaying := fillerPlaying w;
          loops := loops w; dispatched := dispatched w;
          requests := requests w; spoken := text :: spoken w |}).

(** The call of [fetch('/api/chat', { body: { messages } })]. *)
Definition fetch (messages : list Message) : M unit := fun w =>
  (tt, {| state := state w; isRunningRef := isRunningRef w;
          historyRef := historyRef w; fillerPlaying := fillerPlaying w;
          loops := loops w; dispatched := dispatched w;
          requests := messages :: requests w; spoken := spoken w |}).

(** [historyRef.current.slice(-10)] *)
Definition recentHistory : M (list Message) := fun w =>
  (Js.slice_last 10 (historyRef w), w).

(** [historyRef.current = state.history], done by every render of the
    hook. *)
Definition render (w : World) : World :=
  {| state := state w; isRunningRef := isRunningRef w;
     historyRef := history (state w); fillerPlaying := fillerPlaying w;
     loops := loops w; dispatched := dispatched w;
     requests := requests w; spoken := spoken w |}.

(** [res.ok] *)
Definition ok (status : Z) : bool := (200 <=? status)%Z && (status <=? 299)%Z.

Definition decimal (n : Z) : string := NilZero.string_of_int (Z.to_int n).

(** [runLoop] up to its first [await]. *)
Definition runLoop : M (option Suspension) :=
  dispatch START_LISTENING ;;
  ret (Some AwaitCapture).

(** [while (isRunningRef.current) { await runLoop(); }]: the test of the
    loop, entered after the opening line and again whenever [runLoop]
    returns. *)
Definition whileRunning : M (option Suspension) :=
  running <- isRunning ;;
  if running then runLoop else ret None.

(** [startInterview] up to its [await]. *)
Definition startInterview : M (option Suspension) :=
  running <- isRunning ;;
  if running then ret None
  else
    setRunning true ;;
    dispatch RESET ;;
    dispatch (RECEIVE_RESPONSE OPENING_QUESTION EMPTY_METRICS true) ;;
    dispatch START_SPEAKING ;;
    speak OPENING_QUESTION ;;
    ret (Some AwaitOpening).

(** [startInterview] after [await speak(OPENING_QUESTION)]: the [catch]
    is empty, so both outcomes continue alike. *)
Definition afterOpening : M (option Suspension) :=
  dispatch FINISH_SPEAKING ;;
  whileRunning.

(** [runLoop] after [await startListening()] resolved. *)
Definition afterCapture (transcript : string) (duration : Js.Number)
    : M (option Suspension) :=
  running <- isRunning ;;
  if negb running then whileRunning
  else
    p <- (if blank transcript then
            dispatch (UPDATE_TRANSCRIPT "") ;;
            dispatch (START_PROCESSING "") ;;
            ret (SILENT_ANSWER, 0%number)
          else
            dispatch (UPDATE_TRANSCRIPT transcript) ;;
            dispatch (START_PROCESSING transcript) ;;
            ret (transcript, duration)) ;;
    playAudio ;;
    recent <- recentHistory ;;
    fetch (recent ++ [{| role := user; content := fst p |}]) ;;
    ret (Some (AwaitFetch (fst p) (snd p))).

(** The [catch] clause around the request and the reply. *)
Definition catchRequest (err : Thrown) : M (option Suspension) :=
  stopAudio ;;
  dispatch (SET_ERROR (message_or err "Something went wrong")) ;;
  whileRunning.

(** [runLoop] after [await fetch(...)] resolved. *)
Definition afterFetch (finalTranscript : string) (duration : Js.Number)
    (status : Z) : M (option Suspension) :=
  running <- isRunning ;;
  if negb running then stopAudio ;; whileRunning
  else if negb (ok status) then ret (Some (AwaitErrorBody status))
  else ret (Some (AwaitBody finalTranscript duration)).

(** [throw new Error(err.error || `API error: ${res.status}`)] *)
Definition afterErrorBody (status : Z) (error : option string)
    : M (option Suspension) :=
  catchRequest
    (ErrorObject
       match error with
       | Some (String c e) => String c e
       | _ => ("API error: " ++ decimal status)%string
       end).

(** [runLoop] after [const data = await res.json()] resolved. *)
Definition afterBody (finalTranscript : string) (duration : Js.Number)
    (data : APIResponse) : M (option Suspension) :=
  let wpm := calculateWPM finalTranscript duration in
  let analysis' :=
    {| confidence_score := confidence_score (analysis data);
       pacing_wpm := wpm;
       clarity_score := clarity_score (analysis data);
       tone := tone (analysis data);
       feedback_text := feedback_text (analysis data) |} in
  dispatch (RECEIVE_RESPONSE (reply data) analysis' false) ;;
  stopAudio ;;
  dispatch START_SPEAKING ;;
  speak (reply data) ;;
  ret (Some AwaitReply).

(** [runLoop] after [await speak(data.reply)] resolved. *)
Definition afterReply : M (option Suspension) :=
  running <- isRunning ;;
  if negb running then whileRunning
  else dispatch FINISH_SPEAKING ;; whileRunning.

(** The continuation of a parked loop instance when its promise settles;
    [None] when the settlement is not one of the awaited promise. *)
Definition resume (s : Suspension) (r : Settlement)
    : option (M (option Suspension)) :=
  match s, r with
  | AwaitOpening, SpeakEnded => Some afterOpening
  | AwaitOpening, SpeakFailed _ => Some afterOpening
  | AwaitCapture, CaptureEnded t d => Some (afterCapture t d)
  | AwaitCapture, CaptureFailed err =>
      Some (dispatch (SET_ERROR (message_or err "Microphone error")) ;;
            whileRunning)
  | AwaitFetch ft d, FetchResponded status => Some (afterFetch ft d status)
  | AwaitFetch _ _, FetchFailed err => Some (catchRequest err)
  | AwaitErrorBody status, ErrorBodyRead e => Some (afterErrorBody status e)
  | AwaitErrorBody _, BodyFailed err => Some (catchRequest err)
  | AwaitBody ft d, BodyRead data => Some (afterBody ft d data)
  | AwaitBody _ _, BodyFailed err => Some (catchRequest err)
  | AwaitReply, SpeakEnded => Some afterReply
  | AwaitReply, SpeakFailed err => Some (catchRequest err)
  | _, _ => None
  end.

(** [endInterview].  [stopListening()] and [speechSynthesis.cancel()] ask
    the recognizer and the synthesizer to finish; the promises they make
    settle are settled by later events. *)
Definition endInterview : M unit :=
  setRunning false ;;
  stopAudio ;;
  dispatch FINISH_SPEAKING.

(** *** The host event loop *)

Inductive Event : Type :=
| Start                              (* the presentation calls startInterview() *)
| End                                (* the presentation calls endInterview() *)
| Settle (i : nat) (r : Settlement). (* the promise awaited by loop [i] settles *)

Definition setLoops (l : list Suspension) (w : World) : World :=
  {| state := state w; isRunningRef := isRunningRef w;
     historyRef := historyRef w; fillerPlaying := fillerPlaying w;
     loops := l; dispatched := dispatched w;
     requests := requests w; spoken := spoken w |}.

(** Loop [i] parks again at [next], or has returned. *)
Fixpoint park (i : nat) (next : option Suspension) (l : list Suspension)
    : list Suspension :=
  match l, i with
  | [], _ => []
  | _ :: l', O => match next with Some s => s :: l' | None => l' end
  | s :: l', S i' => s :: park i' next l'
  end.

Definition step (e : Event) (w : World) : option World :=
  match e with
  | Start =>
      let (next, w') := startInterview w in
      match next with
      | Some s => Some (setLoops (loops w' ++ [s]) w')
      | None => Some w'
      end
  | End => Some (snd (endInterview w))
  | Settle i r =>
      match nth_error (loops w) i with
      | None => None
      | Some s =>
          match resume s r with
          | None => None
          | Some m =>
              (* the pending updates are rendered before the promise
                 settles *)
              let (next, w') := m (render w) in
              Some (setLoops (park i next (loops w')) w')
          end
      end
  end.

Fixpoint run (es : list Event) (w : World) : option World :=
  match es with
  | [] => Some w
  | e :: es' =>
      match step e w with
      | Some w' => run es' w'
      | None => None
      end
  end.

Definition reachable (w : World) : Prop :=
  exists es, run es initialWorld = Some w.

(* ================================================================== *)
(** ** useSpeechRecognition: startListening and its handlers

    The recognizers are the environment: each calls the handlers that
    [startListening] installed on it, in some order.  [Capture] is what a
    handler reads and writes: the state of the hook together with the
    closure of the call the handler belongs to. *)

Module Recognition.

Record SpeechResult : Type := {
  transcript : string;
  duration : Js.Number
}.

Record LiveTranscript : Type := {
  final : string;
  interim : string;
  wordCount : nat
}.

(** One entry of [event.results]: [result.isFinal] and
    [result[0].transcript]. *)
Record Result : Type := { isFinal : bool; text : string }.

Inductive Promise : Type :=
| Pending
| Resolved (r : SpeechResult)
| Rejected (message : string).

Record Capture : Type := {
  isListening : bool;
  liveTranscript : LiveTranscript;
  speechDuration : Js.Number;
  recognitionRef : bool;        (* recognitionRef.current !== null *)
  startTimeRef : Z;             (* milliseconds *)
  finalTranscript : string;     (* the variable closed over by the handlers *)
  promise : Promise
}.

Inductive Handler : Type :=
| onstart (now : Z)
| onresult (results : list Result)
| onend (now : Z)
| onerror (error : string) (now : Z).

(** A settled promise ignores later calls of resolve and reject. *)
Definition settle (p q : Promise) : Promise :=
  match p with
  | Pending => q
  | _ => p
  end.

(** The [for] loop of [onresult]: the pair is ([finalTranscript],
    [interim]). *)
Definition collect (results : list Result) : string * string :=
  fold_left
    (fun acc result =>
       if isFinal result then ((fst acc ++ text result)%string, snd acc)
       else (fst acc, (snd acc ++ text result)%string))
    results ("", "").

(** [combined ? combined.split(/\s+/).length : 0] *)
Definition countWords (s : string) : nat :=
  let combined := Js.trim (list_ascii_of_string s) in
  if Js.truthy combined then length (Js.split_spaces combined) else 0.

(** [(Date.now() - startTimeRef.current) / 1000] *)
Definition elapsed (now : Z) (c : Capture) : Js.Number :=
  Js.div (Js.ofZ (now - startTimeRef c)) 1000.

(** The [useState] and [useRef] cells of the hook, which all calls
    share. *)
Record Cells : Type := {
  cellListening : bool;                 (* isListening *)
  cellTranscript : LiveTranscript;      (* liveTranscript *)
  cellDuration : Js.Number;             (* speechDuration *)
  cellRecognition : bool;               (* recognitionRef.current !== null *)
  cellStartTime : Z                     (* startTimeRef.current *)
}.

(** The cells before any call. *)
Definition initialCells : Cells :=
  {| cellListening := false;
     cellTranscript := {| final := ""; interim := ""; wordCount := 0 |};
     cellDuration := 0; cellRecognition := false; cellStartTime := 0%Z |}.

(** [startListening()] up to [recognition.start()]: the call creates
    its promise and, when the browser has a recognizer, its variable
    [finalTranscript]. *)
Definition startListening (supported : bool) (cells : Cells) : Capture :=
  if supported then
    {| isListening := cellListening cells;
       liveTranscript := cellTranscript cells;
       speechDuration := cellDuration cells; recognitionRef := true;
       startTimeRef := cellStartTime cells; finalTranscript := "";
       promise := Pending |}
  else
    {| isListening := cellListening cells;
       liveTranscript := cellTranscript cells;
       speechDuration := cellDuration cells;
       recognitionRef := cellRecognition cells;
       startTimeRef := cellStartTime cells; finalTranscript := "";
       promise :=
         Rejected "SpeechRecognition not supported in this browser." |}.

Definition handle (c : Capture) (h : Handler) : Capture :=
  match h with
  | onstart now =>
      {| isListening := true;
         liveTranscript := {| final := ""; interim := ""; wordCount := 0 |};
         speechDuration := speechDuration c;
         recognitionRef := recognitionRef c; startTimeRef := now;
         finalTranscript := finalTranscript c; promise := promise c |}
  | onresult results =>
      let (finalTranscript', interim') := collect results in
      {| isListening := isListening c;
         liveTranscript :=
           {| final := finalTranscript'; interim := interim';
              wordCount := countWords (finalTranscript' ++ interim')%string |};
         speechDuration := speechDuration c;
         recognitionRef := recognitionRef c;
         startTimeRef := startTimeRef c;
         finalTranscript := finalTranscript'; promise := promise c |}
  | onend now =>
      let duration := elapsed now c in
      {| isListening := false; liveTranscript := liveTranscript c;
         speechDuration := duration; recognitionRef := false;
         startTimeRef := startTimeRef c;
         finalTranscript := finalTranscript c;
         promise :=
           settle (promise c)
             (Resolved {| transcript := finalTranscript c;
                          duration := duration |}) |}
  | onerror error now =>
      let duration := elapsed now c in
      {| isListening := false; liveTranscript := liveTranscript c;
         speechDuration := speechDuration c; recognitionRef := false;
         startTimeRef := startTimeRef c;
         finalTranscript := finalTranscript c;
         promise :=
           settle (promise c)
             (if String.eqb error "no-speech" then
                Resolved {| transcript := ""; duration := duration |}
              else Rejected ("Speech recognition error: " ++ error)%string) |}
  end.

(** The finalized and the provisional part of a result list: the
    concatenation of the texts of the results that are final, and of
    those that are not. *)
Definition finalized (results : list Result) : string :=
  String.concat "" (map text (filter isFinal results)).

Definition provisional (results : list Result) : string :=
  String.concat "" (map text (filter (fun r => negb (isFinal r)) results)).

(** *** The hook across its calls

    Every call of [startListening] creates a recognizer, a variable
    [finalTranscript] and a promise of its own, while the handlers of
    all recognizers write the cells of the one hook. *)

(** The closure of one call: its [finalTranscript] and the promise it
    returned. *)
Record Call : Type := { said : string; answer : Promise }.

Record Hook : Type := {
  cells : Cells;
  calls : list Call                     (* the calls made so far, oldest first *)
}.

(** What a handler of the call [call] sees, and what it leaves. *)
Definition focus (hook : Hook) (call : Call) : Capture :=
  {| isListening := cellListening (cells hook);
     liveTranscript := cellTranscript (cells hook);
     speechDuration := cellDuration (cells hook);
     recognitionRef := cellRecognition (cells hook);
     startTimeRef := cellStartTime (cells hook);
     finalTranscript := said call; promise := answer call |}.

Definition cellsOf (c : Capture) : Cells :=
  {| cellListening := isListening c; cellTranscript := liveTranscript c;
     cellDuration := speechDuration c; cellRecognition := recognitionRef c;
     cellStartTime := startTimeRef c |}.

Definition callOf (c : Capture) : Call :=
  {| said := finalTranscript c; answer := promise c |}.

Fixpoint setAt {A : Type} (i : nat) (a : A) (l : list A) : list A :=
  match l, i with
  | [], _ => []
  | _ :: l', O => a :: l'
  | b :: l', S i' => b :: setAt i' a l'
  end.

Inductive Event : Type :=
| Listen                            (* a call of startListening() *)
| Fire (call : nat) (h : Handler).  (* the recognizer of a call calls a handler *)

(** The hook before any call. *)
Definition initialHook : Hook :=
  {| cells := initialCells; calls := [] |}.

(** [supported] tells whether the browser has SpeechRecognition; without
    it no recognizer exists. *)
Definition step (supported : bool) (hook : Hook) (e : Event) : option Hook :=
  match e with
  | Listen =>
      let c := startListening supported (cells hook) in
      Some {| cells := cellsOf c; calls := calls hook ++ [callOf c] |}
  | Fire i h =>
      if supported then
        match nth_error (calls hook) i with
        | Some call =>
            let c := handle (focus hook call) h in
            Some {| cells := cellsOf c;
                    calls := setAt i (callOf c) (calls hook) |}
        | None => None
        end
      else None
  end.

Fixpoint run (supported : bool) (es : list Event) (hook : Hook)
    : option Hook :=
  match es with
  | [] => Some hook
  | e :: es' =>
      match step supported hook e with
      | Some hook' => run supported es' hook'
      | None => None
      end
  end.

(** The promise of call [i]. *)
Definition promiseOf (i : nat) (hook : Hook) : option Promise :=
  option_map answer (nth_error (calls hook) i).

(** The result list of the last [onresult] call of the recognizer of
    call [i], empty when there was none. *)
Definition lastResults (i : nat) (es : list Event) : list Result :=
  fold_left
    (fun acc e =>
       match e with
       | Fire j (onresult results) => if Nat.eqb i j then results else acc
       | _ => acc
       end)
    es [].

(** The recognizer of call [i] has reported its end or an error. *)
Definition stopped (i : nat) (es : list Event) : bool :=
  existsb
    (fun e =>
       match e with
       | Fire j (onend _) | Fire j (onerror _ _) => Nat.eqb i j
       | _ => false
       end)
    es.

End Recognition.

(* ================================================================== *)
(** ** JSON values and the reads the route handlers make on them *)

Module Json.

(** A parsed JSON text; the keys of an object are distinct. *)
Inductive Value : Type :=
| Null
| Bool (b : bool)
| Num (q : Q)
| Str (s : string)
| Arr (items : list Value)
| Obj (fields : list (string * Value)).

(** What a [try] block can throw. *)
Inductive Exn : Type :=
| SyntaxError
| TypeError
| Raised (err : Thrown).

Fixpoint lookup (k : string) (fields : list (string * Value))
    : option Value :=
  match fields with
  | [] => None
  | (k', v) :: rest => if String.eqb k k' then Some v else lookup k rest
  end.

(** [v.k] for one of the keys the handlers read; [None] is
    [undefined], and reading a property of [null] throws. *)
Definition prop (v : Value) (k : string) : Exn + option Value :=
  match v with
  | Null => inl TypeError
  | Obj fields => inr (lookup k fields)
  | _ => inr None
  end.

(** [!!v] *)
Definition truthy (v : option Value) : bool :=
  match v with
  | None | Some Null => false
  | Some (Bool b) => b
  | Some (Num q) => negb (Qeq_bool q 0)
  | Some (Str s) => negb (String.eqb s "")
  | Some (Arr _) | Some (Obj _) => true
  end.

(** [typeof v === 'string'] *)
Definition isString (v : option Value) : bool :=
  match v with Some (Str _) => true | _ => false end.

(** [Array.isArray(v)] *)
Definition isArray (v : option Value) : bool :=
  match v with Some (Arr _) => true | _ => false end.

Definition toneName (t : Tone) : string :=
  match t with
  | professional => "professional"
  | uncertain => "uncertain"
  | casual => "casual"
  | aggressive => "aggressive"
  end.

(** The inverse of [toneName]. *)
Definition toneOfName (s : string) : option Tone :=
  if String.eqb s "professional" then Some professional
  else if String.eqb s "uncertain" then Some uncertain
  else if String.eqb s "casual" then Some casual
  else if String.eqb s "aggressive" then Some aggressive
  else None.

(** The JSON text of a float: [NaN] and the infinities are written as
    [null]. *)
Definition ofNumber (x : Js.Number) : Value :=
  match x with
  | S754_nan | S754_infinity _ => Null
  | _ => Num (Js.toQ x)
  end.

(** The JSON text of a typed object, as [NextResponse.json] writes it. *)
Definition ofMetrics (a : AnalysisMetrics) : Value :=
  Obj [("confidence_score", Num (confidence_score a));
       ("pacing_wpm", ofNumber (pacing_wpm a));
       ("clarity_score", Num (clarity_score a));
       ("tone", Str (toneName (tone a)));
       ("feedback_text", Str (feedback_text a))].

Definition ofResponse (r : APIResponse) : Value :=
  Obj [("reply", Str (reply r)); ("analysis", ofMetrics (analysis r))].

Definition ofError (message : string) : Value :=
  Obj [("error", Str message)].

(** The view of a value at the declared type [AnalysisMetrics] /
    [APIResponse] ([const data: APIResponse = await res.json()]);
    [None] for a value that does not have the declared shape. *)
Definition toMetrics (v : Value) : option AnalysisMetrics :=
  match v with
  | Obj fields =>
      match lookup "confidence_score" fields, lookup "pacing_wpm" fields,
            lookup "clarity_score" fields, lookup "tone" fields,
            lookup "feedback_text" fields with
      | Some (Num c), Some (Num p), Some (Num l), Some (Str t),
        Some (Str f) =>
          match toneOfName t with
          | Some t' =>
              Some {| confidence_score := c; pacing_wpm := Js.ofQ p;
                      clarity_score := l; tone := t';
                      feedback_text := f |}
          | None => None
          end
      | _, _, _, _, _ => None
      end
  | _ => None
  end.

Definition toResponse (v : Value) : option APIResponse :=
  match v with
  | Obj fields =>
      match lookup "reply" fields, lookup "analysis" fields with
      | Some (Str r), Some a =>
          match toMetrics a with
          | Some m => Some {| reply := r; analysis := m |}
          | None => None
          end
      | _, _ => None
      end
  | _ => None
  end.

Record Response : Type := { status : Z; body : Value }.

(** [NextResponse.json(body)] and [NextResponse.json(body, { status })] *)
Definition json (body : Value) : Response :=
  {| status := 200; body := body |}.

Definition jsonStatus (body : Value) (status : Z) : Response :=
  {| status := status; body := body |}.

(** [await request.json()] *)
Inductive RequestBody : Type :=
| Malformed
| Sent (body : Value).

(** The upstream completion: the call, [choices[0]?.message?.content]
    and [JSON.parse(content)]. *)
Inductive Upstream : Type :=
| CallFails (err : Thrown)    (* openai.chat.completions.create rejects *)
| NoContent                   (* content is undefined, null or '' *)
| NotJson                     (* JSON.parse(content) throws *)
| Payload (parsed : Value).   (* JSON.parse(content) *)

(** The control flow of a handler body: it returns a response, throws,
    or goes on with a value. *)
Inductive Flow (A : Type) : Type :=
| Return (r : Response)
| Throw (e : Exn)
| Next (a : A).
Arguments Return {A} r.
Arguments Throw {A} e.
Arguments Next {A} a.

Definition andThen {A B : Type} (c : Flow A) (k : A -> Flow B) : Flow B :=
  match c with
  | Return r => Return r
  | Throw e => Throw e
  | Next a => k a
  end.

Definition read (v : Value) (k : string) : Flow (option Value) :=
  match prop v k with
  | inl e => Throw e
  | inr x => Next x
  end.

End Json.

Notation "'let*' x ':=' c 'in' k" := (Json.andThen c (fun x => k))
  (at level 10, x name, c at level 100, k at level 200).

(* ================================================================== *)
(** ** app/api/chat/route.ts *)

Module Route.
Import Json.

Definition FALLBACK_RESPONSE : APIResponse :=
  {| reply :=
       "I'm having trouble processing that. Could you try rephrasing your answer?";
     analysis :=
       {| confidence_score := 50%Q; pacing_wpm := 0;
          clarity_score := 50%Q; tone := professional;
          feedback_text :=
            "Take a moment to organize your thoughts before responding." |}
  |}.

(** The [for] loop over the messages. *)
Fixpoint validate (messages : list Value) : Flow unit :=
  match messages with
  | [] => Next tt
  | msg :: rest =>
      let* role := read msg "role" in
      if negb (truthy role) then
        Return (jsonStatus
                  (ofError "Invalid message format: role and content required")
                  400)
      else
        let* content := read msg "content" in
        if negb (truthy content) || negb (isString content) then
          Return (jsonStatus
                    (ofError "Invalid message format: role and content required")
                    400)
        else validate rest
  end.

(** The [try] block. *)
Definition tryPOST (request : RequestBody) (upstream : Upstream)
    : Flow Response :=
  let* body := match request with
               | Malformed => Throw SyntaxError
               | Sent b => Next b
               end in
  let* messages := read body "messages" in
  if negb (truthy messages) || negb (isArray messages) then
    Return (jsonStatus (ofError "Invalid request: messages array required")
              400)
  else
    let* _ := validate match messages with
                       | Some (Arr items) => items
                       | _ => []
                       end in
    match upstream with
    | CallFails err => Throw (Raised err)
    | NoContent => Return (json (ofResponse FALLBACK_RESPONSE))
    | NotJson => Throw SyntaxError
    | Payload parsed =>
        let* reply := read parsed "reply" in
        if negb (isString reply) then
          Return (json (ofResponse FALLBACK_RESPONSE))
        else
          let* analysis := read parsed "analysis" in
          if negb (truthy analysis) then
            Return (json (ofResponse FALLBACK_RESPONSE))
          else Return (json parsed)
    end.

Definition POST (request : RequestBody) (upstream : Upstream) : Response :=
  match tryPOST request upstream with
  | Return r => r
  | Next r => r
  | Throw _ => json (ofResponse FALLBACK_RESPONSE)
  end.

End Route.

(* ================================================================== *)
(** ** The variant of the route handler that sanitizes the metrics *)

Module SanitizingRoute.
Import Json.

Definition VALID_TONES : list string :=
  ["professional"; "uncertain"; "casual"; "aggressive"].

(** [Math.max(min, Math.min(max, Math.round(value)))], and 0 for a value
    that is not a number. *)
Definition clampScore (value : option Value) (min max : Q) : Q :=
  match value with
  | Some (Num q) => Qminmax.Qmax min (Qminmax.Qmin max (inject_Z (Js.round q)))
  | _ => 0%Q
  end.

Definition sanitizeAnalysis (raw : Value) : Flow AnalysisMetrics :=
  let* confidence := read raw "confidence_score" in
  let* clarity := read raw "clarity_score" in
  let* tone := read raw "tone" in
  let* feedback := read raw "feedback_text" in
  Next {| confidence_score := clampScore confidence 0 100;
          pacing_wpm := 0;
          clarity_score := clampScore clarity 0 100;
          tone := match tone with
                  | Some (Str t) =>
                      if existsb (String.eqb t) VALID_TONES then
                        (* raw.tone as AnalysisMetrics['tone'] *)
                        match toneOfName t with
                        | Some t' => t'
                        | None => professional
                        end
                      else professional
                  | _ => professional
                  end;
          feedback_text := match feedback with
                           | Some (Str f) => f
                           | _ => ""
                           end |}.

Definition tryPOST (request : RequestBody) (upstream : Upstream)
    : Flow Response :=
  let* body := match request with
               | Malformed => Throw SyntaxError
               | Sent b => Next b
               end in
  let* messages := read body "messages" in
  if negb (truthy messages) || negb (isArray messages) then
    Return (jsonStatus (ofError "Invalid request: messages array required")
              400)
  else
    match upstream with
    | CallFails err => Throw (Raised err)
    | NoContent =>
        Return (jsonStatus (ofError "No response from OpenAI") 502)
    | NotJson => Throw SyntaxError
    | Payload parsed =>
        let* reply := read parsed "reply" in
        match reply with
        | Some (Str r) =>
            let* analysis := read parsed "analysis" in
            match analysis with
            | Some raw =>
                if negb (truthy analysis) then
                  Return (jsonStatus
                            (ofError "Invalid response structure from OpenAI")
                            502)
                else
                  let* metrics := sanitizeAnalysis raw in
                  Return (json (ofResponse
                                  {| reply := r; analysis := metrics |}))
            | None =>
                Return (jsonStatus
                          (ofError "Invalid response structure from OpenAI")
                          502)
            end
        | _ =>
            Return (jsonStatus
                      (ofError "Invalid response structure from OpenAI")
                      502)
        end
    end.

(** [error instanceof Error ? error.message : 'Unknown error']; the text
    of a [TypeError] is the engine's. *)
Definition messageOf (e : Exn) : string :=
  match e with
  | Raised err => message_or err "Unknown error"
  | TypeError => "Cannot read properties of null"
  | SyntaxError => "Unexpected token"
  end.

Definition POST (request : RequestBody) (upstream : Upstream) : Response :=
  match tryPOST request upstream with
  | Return r => r
  | Next r => r
  | Throw SyntaxError =>
      jsonStatus (ofError "OpenAI returned invalid JSON") 502
  | Throw e => jsonStatus (ofError (messageOf e)) 500
  end.

End SanitizingRoute.

(* ================================================================== *)
(** ** Notions the properties are stated with *)

(** The number of words of a text: the maximal runs of characters that
    are not white space.  [inWord] tells that the previous character
    belonged to a word. *)
Fixpoint countRuns (inWord : bool) (s : list ascii) : nat :=
  match s with
  | [] => 0
  | c :: s' =>
      if Js.is_space c then countRuns false s'
      else (if inWord then 0 else 1) + countRuns true s'
  end.

Definition words (text : string) : nat :=
  countRuns false (list_ascii_of_string text).

(** The whole number nearest to [x], a half counting upwards. *)
Definition nearest (x : Q) (n : Z) : Prop :=
  (inject_Z n - (1 # 2) <= x)%Q /\ (x < inject_Z n + (1 # 2))%Q.

(** [r] is the float [x] rounded to the nearest whole number: a float
    with fractional digits becomes the float of the whole number nearest
    to its value (a zero of the same sign when that is 0), and every
    other float is left as it is. *)
Definition rounded (x r : Js.Number) : Prop :=
  match x with
  | S754_finite s m e =>
      if (0 <=? e)%Z then r = x
      else
        exists n, nearest (Js.toQ x) n /\
                  r = if (n =? 0)%Z then S754_zero s
                      else binary_normalize 53 1024 n 0 false
  | _ => r = x
  end.

(** The pacing formula, round(words / seconds x 60), in the arithmetic
    of JavaScript numbers: [r] is the rounded binary64 product of the
    binary64 quotient. *)
Definition pacing (text : string) (durationSeconds r : Js.Number) : Prop :=
  rounded
    (SFmul 53 1024
       (SFdiv 53 1024
          (binary_normalize 53 1024 (Z.of_nat (words text)) 0 false)
          durationSeconds)
       (binary_normalize 53 1024 60 0 false))
    r.

(** *** The transition table *)







(** *** Counting the analyses *)





(** *** Runs *)

(** [startInterview] is not called while a loop instance of an ended
    session is still parked. *)
Definition calm (e : Event) (w : World) : bool :=
  match e with
  | Start => isRunningRef w || match loops w with [] => true | _ => false end
  | _ => true
  end.

(** [run] over events that are all [calm]. *)
Fixpoint runCalm (es : list Event) (w : World) : option World :=
  match es with
  | [] => Some w
  | e :: es' =>
      if calm e w then
        match step e w with
        | Some w' => runCalm es' w'
        | None => None
        end
      else None
  end.




(** The state of the word scanner after reading [s]. *)
Fixpoint endsInWord (inWord : bool) (s : list ascii) : bool :=
  match s with
  | [] => inWord
  | c :: s' => endsInWord (negb (Js.is_space c)) s'
  end.

(** *** The endpoint *)

(** A payload the handlers accept: it has a string reply and a truthy
    analysis. *)
Definition usable (parsed : Json.Value) : bool :=
  match Json.prop parsed "reply", Json.prop parsed "analysis" with
  | inr r, inr a => Json.isString r && Json.truthy a
  | _, _ => false
  end.

(** The upstream call ended with a usable payload. *)
Definition answered_by (u : Json.Upstream) : bool :=
  match u with
  | Json.Payload parsed => usable parsed
  | _ => false
  end.

(** The request passes the checks of [app/api/chat/route.ts]: a JSON
    body whose [messages] is an array of objects with a truthy role and a
    non-empty string content. *)
Definition accepted (request : Json.RequestBody) : bool :=
  match request with
  | Json.Sent body =>
      match Json.prop body "messages" with
      | inr (Some (Json.Arr items)) =>
          match Route.validate items with
          | Json.Next _ => true
          | _ => false
          end
      | _ => false
      end
  | Json.Malformed => false
  end.

(** A score rounded and clamped: for a raw field that is a number, the
    whole number nearest to it, replaced by 0 when it is below 0 and by
    100 when it is above 100; for a missing field or a field that is
    not a number, 0. *)
Definition clamped (field : Json.Exn + option Json.Value) (score : Q)
    : Prop :=
  match field with
  | inr (Some (Json.Num q)) =>
      exists n, nearest q n /\ score = inject_Z (Z.max 0 (Z.min 100 n))
  | _ => score = 0%Q
  end.

(** What the sanitizing variant promises about the metrics [m] it
    returns for the raw analysis [raw]: the two scores are the raw ones
    rounded and clamped to 0..100 (0 when not a number), the pacing is
    0, the tone is the raw one when that is one of the four tones and the
    default tone otherwise, the feedback is the raw one when that is a
    string and empty otherwise. *)
Definition sanitized (raw : Json.Value) (m : AnalysisMetrics) : Prop :=
  clamped (Json.prop raw "confidence_score") (confidence_score m) /\
  clamped (Json.prop raw "clarity_score") (clarity_score m) /\
  pacing_wpm m = 0%number /\
  match Json.prop raw "tone" with
  | inr (Some (Json.Str t)) =>
      Json.toneName (tone m) = t \/
      ((forall t', Json.toneName t' <> t) /\ tone m = professional)
  | _ => tone m = professional
  end /\
  match Json.prop raw "feedback_text" with
  | inr (Some (Json.Str f)) => feedback_text m = f
  | _ => feedback_text m = ""
  end.

(** A request the handlers accept. *)
Definition sampleRequest : Json.RequestBody :=
  Json.Sent
    (Json.Obj
       [("messages",
         Json.Arr
           [Json.Obj [("role", Json.Str "user");
                      ("content", Json.Str "I led a migration")]])]).

(** A payload whose confidence_score is a string. *)
Definition wrongTypePayload : Json.Value :=
  Json.Obj
    [("reply", Json.Str "Good start.");
     ("analysis",
      Json.Obj [("confidence_score", Json.Str "high");
                ("pacing_wpm", Json.Num 0);
                ("clarity_score", Json.Num 70);
                ("tone", Json.Str "casual");
                ("feedback_text", Json.Str "Name one result.")])].

(** A payload whose confidence_score is out of range. *)
Definition outOfRangePayload : Json.Value :=
  Json.Obj
    [("reply", Json.Str "Good start.");
     ("analysis",
      Json.Obj [("confidence_score", Json.Num 250);
                ("pacing_wpm", Json.Num 0);
                ("clarity_score", Json.Num 70);
                ("tone", Json.Str "sarcastic");
                ("feedback_text", Json.Str "Name one result.")])].

(** A payload whose scores have fractional digits and whose feedback is
    not a string. *)
Definition fractionalPayload : Json.Value :=
  Json.Obj
    [("reply", Json.Str "Good start.");
     ("analysis",
      Json.Obj [("confidence_score", Json.Num (145 # 2));
                ("clarity_score", Json.Num (- (3 # 10)));
                ("tone", Json.Str "uncertain");
                ("feedback_text", Json.Num 3)])].

(** A payload without analysis. *)
Definition replyOnlyPayload : Json.Value :=
  Json.Obj [("reply", Json.Str "Good start.")].

(** *** Rounds *)

(** The text and the duration a round goes on with after capture. *)
Definition answered (t : string) (d : Js.Number) : string * Js.Number :=
  if blank t then (SILENT_ANSWER, 0%number) else (t, d).

(** The text shown and stored for the user turn. *)
Definition stored (t : string) : string := if blank t then "" else t.

(** The metrics a round stores: the endpoint's, with the pacing replaced. *)
Definition measured (ft : string) (d : Js.Number) (data : APIResponse)
    : AnalysisMetrics :=
  {| confidence_score := confidence_score (analysis data);
     pacing_wpm := calculateWPM ft d;
     clarity_score := clarity_score (analysis data);
     tone := tone (analysis data);
     feedback_text := feedback_text (analysis data) |}.

(** An endpoint answer that reports a pacing of its own. *)
Definition sampleAnswer : APIResponse :=
  {| reply := "Thanks. What did you learn from it?";
     analysis :=
       {| confidence_score := 80%Q; pacing_wpm := 7;
          clarity_score := 70%Q; tone := casual;
          feedback_text := "Give one concrete number." |} |}.

(** Forty-one words. *)
Definition fortyOneWords : string :=
  "so in my last role we had to move the billing system to a new provider within one quarter and I led the plan the testing and the rollout with three engineers while keeping the old system running for our customers".

(** A world in which a session is running: the opening line has been
    spoken and the first capture is pending. *)
Definition listeningWorld : World :=
  match run [Start; Settle 0 SpeakEnded] initialWorld with
  | Some w => w
  | None => initialWorld
  end.

(** A world in which the request of the first round is pending. *)
Definition processingWorld : World :=
  match run [Start; Settle 0 SpeakEnded;
             Settle 0 (CaptureEnded "I led a migration" 4)]
          initialWorld with
  | Some w => w
  | None => initialWorld
  end.

(** A world in which the first answer has been analysed and the reply is
    being spoken. *)
Definition answeredWorld : World :=
  match run [Start; Settle 0 SpeakEnded;
             Settle 0 (CaptureEnded "I led a migration" 4);
             Settle 0 (FetchResponded 200); Settle 0 (BodyRead sampleAnswer)]
          initialWorld with
  | Some w => w
  | None => initialWorld
  end.

(** The session is ended while the body of the response is being read. *)
Definition endedWhileReading : list Event :=
  [Start; Settle 0 SpeakEnded;
   Settle 0 (CaptureEnded "I led a migration" 4);
   Settle 0 (FetchResponded 200); End].






(** *** Invariants *)



(** The phase a running loop has set when it parks. *)
Definition phaseAt (s : Suspension) : Phase :=
  match s with
  | AwaitOpening => speaking
  | AwaitCapture => listening
  | AwaitFetch _ _ | AwaitErrorBody _ | AwaitBody _ _ => processing
  | AwaitReply => speaking
  end.

(** The loop is parked between posting the request and reading the
    answer. *)
Definition inRequest (s : Suspension) : bool :=
  match s with
  | AwaitFetch _ _ | AwaitErrorBody _ | AwaitBody _ _ => true
  | _ => false
  end.

(** In a calm run at most one loop instance is alive and the phase is
    tied to the place where it is parked; the filler clip plays only
    while the run flag is set. *)
Definition phaseInvariant (w : World) : Prop :=
  (fillerPlaying w = true -> isRunningRef w = true) /\
  match loops w with
  | [] =>
      isRunningRef w = false /\
      (phase (state w) = idle \/ phase (state w) = speaking)
  | [s] =>
      if isRunningRef w then phase (state w) = phaseAt s
      else phase (state w) = idle \/
           (s = AwaitReply /\ phase (state w) = speaking)
  | _ => False
  end.



(** *** Captures *)

(** A first capture rejected by the recognizer, and a second one in
    which the recognizer has finalized one segment and still holds a
    provisional one; the end event of the first recognizer arrives
    meanwhile. *)
Definition heard : list Recognition.Event :=
  [Recognition.Listen;
   Recognition.Fire 0 (Recognition.onstart 500);
   Recognition.Fire 0 (Recognition.onerror "network" 700);
   Recognition.Listen;
   Recognition.Fire 1 (Recognition.onstart 1000);
   Recognition.Fire 0 (Recognition.onend 1100);
   Recognition.Fire 1
     (Recognition.onresult
        [ {| Recognition.isFinal := false; Recognition.text := "tell" |} ]);
   Recognition.Fire 1
     (Recognition.onresult
        [ {| Recognition.isFinal := true; Recognition.text := "Tell me " |};
          {| Recognition.isFinal := false; Recognition.text := "about" |} ])].

(** The hook after [heard]. *)
Definition heardHook : Recognition.Hook :=
  match Recognition.run true heard Recognition.initialHook with
  | Some hook => hook
  | None => Recognition.initialHook
  end.

(** ** Proof support for stepping the loop *)

(** Unfold the segments and the operations of the monad. *)
Ltac unfold_loop :=
  unfold afterOpening, afterCapture, afterFetch, afterErrorBody, afterBody,
    afterReply, catchRequest, whileRunning, runLoop, startInterview,
    endInterview, playAudio, stopAudio, recentHistory, fetch, speak,
    setFiller, setRunning, isRunning, dispatch, bind, ret, render,
    setLoops in *.

(** Split a hypothesis [step e w = Some w'] into the paths through the
    code of the segment; each path leaves [w'] as an explicit record. *)
Ltac split_paths H :=
  repeat (simpl in H;
          match type of H with
          | context [match ?x with _ => _ end] =>
              lazymatch x with
              | context [match _ with _ => _ end] => fail
              | _ => destruct x eqn:?
              end
          end);
  simpl in H; try discriminate H.


(* ================================================================== *)
(** ** The request body the loop posts *)

Definition roleName (r : Role) : string :=
  match r with
  | user => "user"
  | assistant => "assistant"
  | system => "system"
  end.

(** [JSON.stringify({ messages })], as the handler parses it back. *)
Definition ofMessage (m : Message) : Json.Value :=
  Json.Obj [("role", Json.Str (roleName (role m)));
            ("content", Json.Str (content m))].

Definition ofRequest (messages : list Message) : Json.RequestBody :=
  Json.Sent (Json.Obj [("messages", Json.Arr (map ofMessage messages))]).

(* ================================================================== *)
(** ** app/lib/speech.ts: the filler clip

    [currentAudio] is a module variable.  Audio elements are numbered in
    the order of their creation; [playing] lists the elements that are
    audible. *)

Module Filler.

Record Player : Type := {
  currentAudio : option nat;
  playing : list nat;
  created : nat                 (* the number of elements created so far *)
}.

Definition initial : Player :=
  {| currentAudio := None; playing := []; created := 0 |}.

(** [audio.pause()] *)
Definition pause (a : nat) (l : list nat) : list nat :=
  filter (fun b => negb (Nat.eqb a b)) l.

(** [playAudio(src)]; [started] tells whether [audio.play()] succeeds. *)
Definition playAudio (started : bool) (p : Player) : Player :=
  let quiet := match currentAudio p with
               | Some a => pause a (playing p)
               | None => playing p
               end in
  let audio := created p in
  {| currentAudio := Some audio;
     playing := if started then audio :: quiet else quiet;
     created := S (created p) |}.

Definition stopAudio (p : Player) : Player :=
  match currentAudio p with
  | Some a =>
      {| currentAudio := None; playing := pause a (playing p);
         created := created p |}
  | None => p
  end.

(** The element [a] has reached its end, or has failed: it is silent, and
    its [onended] / [onerror] handler runs. *)
Definition finished (a : nat) (p : Player) : Player :=
  {| currentAudio := None; playing := pause a (playing p);
     created := created p |}.

Inductive Event : Type :=
| Play (started : bool)
| Stop
| Finished (a : nat).

Definition step (p : Player) (e : Event) : Player :=
  match e with
  | Play started => playAudio started p
  | Stop => stopAudio p
  | Finished a => finished a p
  end.

(** The element of a [Finished] event is the current one. *)
Definition timely (p : Player) (e : Event) : bool :=
  match e, currentAudio p with
  | Finished a, Some b => Nat.eqb a b
  | Finished _, None => false
  | _, _ => true
  end.

Fixpoint run (es : list Event) (p : Player) : option Player :=
  match es with
  | [] => Some p
  | e :: es' => if timely p e then run es' (step p e) else None
  end.

End Filler.

(* ================================================================== *)
(** ** InterviewControl and Dashboard: what is shown *)

Module Presentation.





(** One bar of the progress chart; [round] is the number in the label
    [Q<round>]. *)
Record Bar : Type := { round : nat; confidence : Q; clarity : Q }.

(** [arr.map((s, i) => f s i)], counting from [i]. *)
Fixpoint mapi_from {A B : Type} (f : A -> nat -> B) (i : nat) (l : list A)
    : list B :=
  match l with
  | [] => []
  | a :: l' => f a i :: mapi_from f (S i) l'
  end.

Definition barData (allStats : list AnalysisMetrics) : list Bar :=
  mapi_from
    (fun s i =>
       {| round := length allStats - length (Js.slice_last 5 allStats)
                   + i + 1;
          confidence := confidence_score s;
          clarity := clarity_score s |})
    0 (Js.slice_last 5 allStats).

(** [barData.length > 1 && <BarChart data={barData} />]: the bars of
    the progress chart, when it is rendered. *)
Definition progressChart (allStats : list AnalysisMetrics)
    : option (list Bar) :=
  if Nat.ltb 1 (length (barData allStats)) then Some (barData allStats)
  else None.

(** [stats.confidence_score > 0 || stats.clarity_score > 0] *)
Definition hasData (stats : AnalysisMetrics) : bool :=
  negb (Qle_bool (confidence_score stats) 0)
  || negb (Qle_bool (clarity_score stats) 0).

End Presentation.

(* ================================================================== *)
(** ** Further notions *)

(** One list extends another at its end. *)
Definition extends {A : Type} (l l' : list A) : Prop :=
  exists added, l' = l ++ added.

(** The replies of the RECEIVE_RESPONSE dispatches of a log, newest
    first. *)
Fixpoint repliesOf (log : list (InterviewState * Action)) : list string :=
  match log with
  | [] => []
  | (_, RECEIVE_RESPONSE r _ _) :: older => r :: repliesOf older
  | _ :: older => repliesOf older
  end.

(** A posted message list has at most eleven messages and ends with a
    user turn that is not blank. *)
Definition wellFormedRequest (messages : list Message) : bool :=
  Nat.leb (length messages) 11
  && match rev messages with
     | m :: _ => is_user m && negb (blank (content m))
     | [] => false
     end.

(** The awaits a loop has left once the run flag is clear. *)
Definition awaitsLeft (s : Suspension) : nat :=
  match s with
  | AwaitBody _ _ => 2
  | _ => 1
  end.

Definition allAwaitsLeft (w : World) : nat :=
  list_sum (map awaitsLeft (loops w)).

(** The settlements that make [runLoop] dispatch SET_ERROR. *)
Definition failure (s : Suspension) (r : Settlement) : bool :=
  match s, r with
  | AwaitCapture, CaptureFailed _ => true
  | AwaitFetch _ _, FetchFailed _ => true
  | AwaitErrorBody _, ErrorBodyRead _ => true
  | AwaitErrorBody _, BodyFailed _ => true
  | AwaitBody _ _, BodyFailed _ => true
  | AwaitReply, SpeakFailed _ => true
  | _, _ => false
  end.

(** A float that is neither negative nor [NaN]: plus zero, a positive
    float or plus infinity. *)
Definition positiveOrZero (x : Js.Number) : Prop :=
  match x with
  | S754_zero s | S754_infinity s | S754_finite s _ _ => s = false
  | S754_nan => False
  end.

(** Nothing plays, or only the current clip does. *)
Definition oneClip (p : Filler.Player) : Prop :=
  Filler.playing p = [] \/
  exists a, Filler.playing p = [a] /\ Filler.currentAudio p = Some a.

(** A world after a silent answer: the reply has been spoken and the
    next capture is pending. *)
Definition afterSilenceWorld : World :=
  match run [Start; Settle 0 SpeakEnded; Settle 0 (CaptureEnded "" 0);
             Settle 0 (FetchResponded 200); Settle 0 (BodyRead sampleAnswer);
             Settle 0 SpeakEnded] initialWorld with
  | Some w => w
  | None => initialWorld
  end.

(* ================================================================== *)
(** * Properties *)

(** ** Words and white space *)

Section Words.

Lemma split_length_runs : forall s cur inWord,
  length (Js.split_spaces_from cur (negb inWord) s)
    + (if endsInWord inWord s then 1 else 0)
  = countRuns inWord s + (if inWord then 1 else 0) + 1.
Proof.
  induction s as [|c s IH]; intros cur inWord; simpl.
  - destruct inWord; reflexivity.
  - destruct (Js.is_space c) eqn:Hc; simpl.
    + destruct inWord; simpl.
      * specialize (IH [] false). simpl in IH. lia.
      * specialize (IH [] false). simpl in IH. lia.
    + specialize (IH (c :: cur) true). simpl in IH.
      destruct inWord; simpl; lia.
Qed.

Lemma trimStart_split : forall s,
  exists sp, s = sp ++ Js.trimStart s /\ forallb Js.is_space sp = true.
Proof.
  induction s as [|c s [sp [H1 H2]]]; simpl.
  - exists []. split; reflexivity.
  - destruct (Js.is_space c) eqn:Hc.
    + exists (c :: sp). simpl. rewrite Hc, H2. split; [congruence | reflexivity].
    + exists []. split; reflexivity.
Qed.

Lemma trimStart_head : forall s c s',
  Js.trimStart s = c :: s' -> Js.is_space c = false.
Proof.
  induction s as [|a s IH]; simpl; intros c s' H; [discriminate|].
  destruct (Js.is_space a) eqn:Ha.
  - eapply IH; eassumption.
  - congruence.
Qed.

Lemma countRuns_trimStart : forall s,
  countRuns false (Js.trimStart s) = countRuns false s.
Proof.
  induction s as [|c s IH]; simpl; [reflexivity|].
  destruct (Js.is_space c) eqn:Hc; simpl; [assumption|].
  rewrite Hc. reflexivity.
Qed.

Lemma countRuns_spaces : forall sp b,
  forallb Js.is_space sp = true -> countRuns b sp = 0.
Proof.
  induction sp as [|c sp IH]; simpl; intros b H; [reflexivity|].
  apply andb_prop in H. destruct H as [Hc H]. rewrite Hc. auto.
Qed.

Lemma countRuns_app_spaces : forall s sp b,
  forallb Js.is_space sp = true -> countRuns b (s ++ sp) = countRuns b s.
Proof.
  induction s as [|c s IH]; simpl; intros sp b H.
  - apply countRuns_spaces; assumption.
  - destruct (Js.is_space c); rewrite IH by assumption; reflexivity.
Qed.

Lemma forallb_rev : forall (f : ascii -> bool) l,
  forallb f (rev l) = forallb f l.
Proof.
  induction l as [|a l IH]; simpl; [reflexivity|].
  rewrite forallb_app, IH. simpl. rewrite andb_true_r, andb_comm.
  reflexivity.
Qed.

Lemma trimEnd_split : forall s,
  exists sp, s = Js.trimEnd s ++ sp /\ forallb Js.is_space sp = true.
Proof.
  intros s. destruct (trimStart_split (rev s)) as [sp [H1 H2]].
  exists (rev sp). split.
  - unfold Js.trimEnd. rewrite <- rev_app_distr, <- H1, rev_involutive.
    reflexivity.
  - rewrite forallb_rev. assumption.
Qed.

Lemma endsInWord_last : forall s b c,
  endsInWord b (s ++ [c]) = negb (Js.is_space c).
Proof.
  induction s as [|a s IH]; simpl; intros; [reflexivity | apply IH].
Qed.

Lemma trimEnd_ends : forall s b,
  Js.trimEnd s <> [] -> endsInWord b (Js.trimEnd s) = true.
Proof.
  intros s b H. unfold Js.trimEnd in *.
  destruct (Js.trimStart (rev s)) as [|c r] eqn:E; [contradiction|].
  simpl. rewrite endsInWord_last.
  apply trimStart_head in E. rewrite E. reflexivity.
Qed.

Lemma trimEnd_keeps_head : forall c s,
  Js.is_space c = false -> exists s', Js.trimEnd (c :: s) = c :: s'.
Proof.
  intros c s Hc. destruct (trimEnd_split (c :: s)) as [sp [H1 H2]].
  destruct (Js.trimEnd (c :: s)) as [|a q].
  - simpl in H1. subst sp. simpl in H2. rewrite Hc in H2. discriminate.
  - simpl in H1. injection H1 as -> _. eauto.
Qed.

(** For a text that is not blank, the length of the split of the
    trimmed text is the number of its words. *)
Lemma wordCount_words : forall t,
  blank t = false -> wordCount t = words t.
Proof.
  intros t Hb. unfold wordCount, words, blank in *.
  set (s := list_ascii_of_string t) in *.
  unfold Js.trim in *.
  destruct (Js.trimStart s) as [|c a] eqn:Ea.
  - simpl in Hb. discriminate.
  - pose proof (trimStart_head _ _ _ Ea) as Hc.
    destruct (trimEnd_keeps_head c a Hc) as [q Hq].
    assert (Hend : endsInWord false (Js.trimEnd (c :: a)) = true)
      by (apply trimEnd_ends; rewrite Hq; discriminate).
    destruct (trimEnd_split (c :: a)) as [sp [H1 H2]].
    rewrite <- (countRuns_trimStart s), Ea.
    rewrite Hq in *. rewrite H1.
    rewrite countRuns_app_spaces by assumption.
    simpl in Hend. rewrite Hc in Hend. simpl in Hend.
    unfold Js.split_spaces. simpl. rewrite Hc.
    pose proof (split_length_runs q [c] true) as H. simpl in H.
    rewrite Hend in H. lia.
Qed.

(** A blank text has no word. *)
Lemma blank_words : forall t, blank t = true -> words t = 0.
Proof.
  intros t Hb. unfold words, blank in *.
  set (s := list_ascii_of_string t) in *.
  unfold Js.trim in Hb.
  rewrite <- countRuns_trimStart.
  destruct (Js.trimStart s) as [|c a] eqn:Ea; [reflexivity|].
  pose proof (trimStart_head _ _ _ Ea) as Hc.
  destruct (trimEnd_keeps_head c a Hc) as [q Hq].
  rewrite Hq in Hb. discriminate.
Qed.

End Words.

(* ================================================================== *)
(** ** The reducer *)

(** C10. The SET_ERROR transition sets the phase to idle and the error to
    the message, and leaves history, stats, allStats and transcript as
    they were. *)
Theorem set_error_changes_phase_and_error_only : forall s e,
  phase (reducer s (SET_ERROR e)) = idle /\
  error (reducer s (SET_ERROR e)) = Some e /\
  history (reducer s (SET_ERROR e)) = history s /\
  stats (reducer s (SET_ERROR e)) = stats s /\
  allStats (reducer s (SET_ERROR e)) = allStats s /\
  transcript (reducer s (SET_ERROR e)) = transcript s.
Proof. intros s e. simpl. repeat split; reflexivity. Qed.

(** ** Stepping the loop *)

Lemma step_settle : forall i r w w',
  step (Settle i r) w = Some w' ->
  exists s m next w1,
    nth_error (loops w) i = Some s /\
    resume s r = Some m /\
    m (render w) = (next, w1) /\
    w' = setLoops (park i next (loops w1)) w1.
Proof.
  intros i r w w' H. simpl in H.
  destruct (nth_error (loops w) i) as [s|] eqn:Hs; [|discriminate].
  destruct (resume s r) as [m|] eqn:Hm; [|discriminate].
  destruct (m (render w)) as [next w1] eqn:Hr.
  injection H as <-. exists s, m, next, w1. auto.
Qed.

Lemma nth_error_park : forall l i s s',
  nth_error l i = Some s -> nth_error (park i (Some s') l) i = Some s'.
Proof.
  induction l as [|a l IH]; intros [|i] s s' H; simpl in *;
    try discriminate; eauto.
Qed.

Lemma run_app : forall es1 es2 w,
  run (es1 ++ es2) w =
  match run es1 w with
  | Some w' => run es2 w'
  | None => None
  end.
Proof.
  induction es1 as [|e es1 IH]; intros es2 w; simpl; [reflexivity|].
  destruct (step e w); [apply IH | reflexivity].
Qed.

(** An invariant of [step] holds in every reachable world. *)
Lemma reachable_ind : forall P : World -> Prop,
  P initialWorld ->
  (forall e w w', P w -> step e w = Some w' -> P w') ->
  forall w, reachable w -> P w.
Proof.
  intros P H0 Hstep w [es Hes]. revert w Hes.
  induction es as [|e es IH] using rev_ind; intros w Hes.
  - injection Hes as <-. assumption.
  - rewrite run_app in Hes.
    destruct (run es initialWorld) as [w0|] eqn:E; [|discriminate].
    simpl in Hes. destruct (step e w0) as [w1|] eqn:E1; [|discriminate].
    injection Hes as <-. eapply Hstep; [apply IH; reflexivity | eassumption].
Qed.

(** ** start() *)

(** C8. A call of start() while the run flag is set changes nothing: the
    session state, the flag and the parked loops are the same, so no
    second loop is spawned.  A call while the flag is clear sets it,
    resets the session state to the opening line being spoken and parks
    one new loop. *)
Theorem start_is_guarded_by_the_run_flag : forall w,
  (isRunningRef w = true -> step Start w = Some w) /\
  (isRunningRef w = false ->
   exists w', step Start w = Some w' /\
     isRunningRef w' = true /\
     loops w' = loops w ++ [AwaitOpening] /\
     state w' =
       {| phase := speaking; transcript := "";
          history := [{| role := assistant; content := OPENING_QUESTION |}];
          stats := EMPTY_METRICS; allStats := []; error := None |}).
Proof.
  intros w. split; intros H.
  - unfold step, startInterview, bind, isRunning. rewrite H. reflexivity.
  - eexists. split.
    + unfold step. unfold_loop. rewrite H. simpl. reflexivity.
    + simpl. repeat split; reflexivity.
Qed.

Lemma start_is_guarded_by_the_run_flag_witness :
  isRunningRef listeningWorld = true /\
  step Start listeningWorld = Some listeningWorld.
Proof.
  split.
  - reflexivity.
  - apply (proj1 (start_is_guarded_by_the_run_flag listeningWorld)).
    reflexivity.
Defined.

(** ** allStats *)












(* ================================================================== *)
(** ** One round of the loop, segment by segment *)

Lemma capture_segment : forall w i t d,
  nth_error (loops w) i = Some AwaitCapture ->
  isRunningRef w = true ->
  exists w1,
    step (Settle i (CaptureEnded t d)) w = Some w1 /\
    state w1 =
      {| phase := processing; transcript := stored t;
         history := history (state w)
                    ++ [{| role := user; content := stored t |}];
         stats := stats (state w); allStats := allStats (state w);
         error := error (state w) |} /\
    isRunningRef w1 = true /\
    loops w1 =
      park i (Some (AwaitFetch (fst (answered t d)) (snd (answered t d))))
        (loops w) /\
    requests w1 =
      (Js.slice_last 10 (history (state w))
       ++ [{| role := user; content := fst (answered t d) |}])
      :: requests w /\
    spoken w1 = spoken w.
Proof.
  intros w i t d Hs Hrun. unfold step. rewrite Hs. simpl.
  unfold_loop. unfold answered, stored. simpl. rewrite Hrun. simpl.
  destruct (blank t); simpl; eexists; (split; [reflexivity|]); simpl;
    repeat split; try reflexivity; assumption.
Qed.

Lemma fetch_segment : forall w i ft d status,
  nth_error (loops w) i = Some (AwaitFetch ft d) ->
  isRunningRef w = true ->
  ok status = true ->
  exists w1,
    step (Settle i (FetchResponded status)) w = Some w1 /\
    state w1 = state w /\
    isRunningRef w1 = true /\
    loops w1 = park i (Some (AwaitBody ft d)) (loops w) /\
    spoken w1 = spoken w /\
    dispatched w1 = dispatched w.
Proof.
  intros w i ft d status Hs Hrun Hok. unfold step. rewrite Hs. simpl.
  unfold_loop. simpl. rewrite Hrun, Hok. simpl.
  eexists. split; [reflexivity|]. simpl. repeat split; assumption.
Qed.

Lemma body_segment : forall w i ft d data,
  nth_error (loops w) i = Some (AwaitBody ft d) ->
  exists w1,
    step (Settle i (BodyRead data)) w = Some w1 /\
    state w1 =
      {| phase := speaking; transcript := transcript (state w);
         history := history (state w)
                    ++ [{| role := assistant; content := reply data |}];
         stats := measured ft d data;
         allStats := allStats (state w) ++ [measured ft d data];
         error := error (state w) |} /\
    isRunningRef w1 = isRunningRef w /\
    loops w1 = park i (Some AwaitReply) (loops w) /\
    spoken w1 = reply data :: spoken w /\
    dispatched w1 =
      (reducer (state w) (RECEIVE_RESPONSE (reply data) (measured ft d data) false),
       START_SPEAKING)
      :: (state w, RECEIVE_RESPONSE (reply data) (measured ft d data) false)
      :: dispatched w.
Proof.
  intros w i ft d data Hs. unfold step. rewrite Hs. simpl.
  unfold_loop. simpl.
  eexists. split; [reflexivity|]. simpl. repeat split; reflexivity.
Qed.



(** A whole round whose capture and request succeed. *)
Lemma successful_round : forall w i t d status data,
  nth_error (loops w) i = Some AwaitCapture ->
  isRunningRef w = true ->
  ok status = true ->
  exists w',
    run [Settle i (CaptureEnded t d); Settle i (FetchResponded status);
         Settle i (BodyRead data)] w = Some w' /\
    state w' =
      {| phase := speaking; transcript := stored t;
         history := history (state w)
                    ++ [{| role := user; content := stored t |};
                        {| role := assistant; content := reply data |}];
         stats := measured (fst (answered t d)) (snd (answered t d)) data;
         allStats := allStats (state w)
                     ++ [measured (fst (answered t d)) (snd (answered t d))
                           data];
         error := error (state w) |} /\
    spoken w' = reply data :: spoken w.
Proof.
  intros w i t d status data Hs Hrun Hok.
  destruct (capture_segment w i t d Hs Hrun)
    as (w1 & E1 & S1 & R1 & L1 & _ & P1).
  assert (Hs1 : nth_error (loops w1) i
                = Some (AwaitFetch (fst (answered t d)) (snd (answered t d))))
    by (rewrite L1; eapply nth_error_park; eassumption).
  destruct (fetch_segment w1 i _ _ status Hs1 R1 Hok)
    as (w2 & E2 & S2 & R2 & L2 & P2 & _).
  assert (Hs2 : nth_error (loops w2) i
                = Some (AwaitBody (fst (answered t d)) (snd (answered t d))))
    by (rewrite L2; eapply nth_error_park; eassumption).
  destruct (body_segment w2 i _ _ data Hs2)
    as (w3 & E3 & S3 & _ & _ & P3 & _).
  exists w3. cbn [run]. rewrite E1, E2, E3. split; [reflexivity|].
  rewrite S3, S2, S1, P3, P2, P1. simpl. rewrite <- app_assoc. simpl.
  split; reflexivity.
Qed.

(* ================================================================== *)
(** ** Pacing *)

(** [Math.round] on rationals returns the nearest whole number. *)
Lemma nearest_round : forall x, nearest x (Js.round x).
Proof.
  intros x. unfold nearest, Js.round.
  pose proof (Qfloor_le (x + (1 # 2))) as L.
  pose proof (Qlt_floor (x + (1 # 2))) as U.
  rewrite inject_Z_plus in U. change (inject_Z 1) with 1%Q in U.
  split; lra.
Qed.

(** The nearest whole number is unique. *)
Lemma nearest_unique : forall x n n', nearest x n -> nearest x n' -> n = n'.
Proof.
  intros x n n' [L U] [L' U'].
  assert (A : (inject_Z n < inject_Z (n' + 1))%Q)
    by (rewrite inject_Z_plus; change (inject_Z 1) with 1%Q; lra).
  assert (B : (inject_Z n' < inject_Z (n + 1))%Q)
    by (rewrite inject_Z_plus; change (inject_Z 1) with 1%Q; lra).
  rewrite <- Zlt_Qlt in A, B. lia.
Qed.

(** [Math.round] on floats rounds. *)
Lemma Math_round_rounded : forall x, rounded x (Js.Math_round x).
Proof.
  intros [s|s| |s m e]; try reflexivity. unfold rounded, Js.Math_round.
  destruct (0 <=? e)%Z; [reflexivity|].
  eexists. split; [apply nearest_round | reflexivity].
Qed.

Lemma positive_is_not_nonpositive : forall d,
  Js.ltb 0 d = true -> Js.leb d 0 = false.
Proof. intros [[|]|[|]| |[|] m e]; intros H; try discriminate H; reflexivity. Qed.

Lemma quotient_of_nothing : forall d,
  Js.ltb 0 d = true -> Js.mul (Js.div (Js.ofZ 0) d) 60 = 0%number.
Proof. intros [[|]|[|]| |[|] m e]; intros H; try discriminate H; reflexivity. Qed.

(** The client-side value is the pacing formula whenever the duration is
    positive, for a blank answer too. *)
Lemma calculateWPM_answered : forall t d,
  Js.ltb 0 d = true ->
  pacing t d (calculateWPM (fst (answered t d)) (snd (answered t d))).
Proof.
  intros t d Hd.
  change (rounded (Js.mul (Js.div (Js.ofZ (Z.of_nat (words t))) d) 60)
            (calculateWPM (fst (answered t d)) (snd (answered t d)))).
  unfold answered.
  destruct (blank t) eqn:Hb; cbn [fst snd].
  - rewrite (blank_words t Hb). cbn [Z.of_nat].
    rewrite (quotient_of_nothing d Hd). reflexivity.
  - unfold calculateWPM.
    rewrite Hb, (positive_is_not_nonpositive d Hd). cbn [orb].
    rewrite (wordCount_words t Hb). apply Math_round_rounded.
Qed.

(** The client-side value is 0 when the duration is not positive, and
    for a blank answer. *)
Lemma calculateWPM_answered_nonpositive : forall t d,
  Js.leb d 0 = true \/ blank t = true ->
  calculateWPM (fst (answered t d)) (snd (answered t d)) = 0%number.
Proof.
  intros t d H. unfold answered.
  destruct (blank t) eqn:Hb; cbn [fst snd]; [reflexivity|].
  destruct H as [Hd|Hd]; [|discriminate Hd].
  unfold calculateWPM. rewrite Hb, Hd. reflexivity.
Qed.

(** The guard of calculateWPM lets a duration that is not a number
    through. *)
Lemma calculateWPM_answered_nan : forall t d,
  Js.isNaN d = true -> blank t = false ->
  calculateWPM (fst (answered t d)) (snd (answered t d)) = S754_nan.
Proof.
  intros t d Hd Hb. unfold answered. rewrite Hb. cbn [fst snd].
  destruct d; try discriminate Hd.
  unfold calculateWPM. rewrite Hb. cbn [orb Js.leb SFleb SFcompare].
  destruct (Js.ofZ (Z.of_nat (wordCount t))); reflexivity.
Qed.

(** The arithmetic is that of floats: for forty-one words in forty
    seconds the float product is just below 61.5, and the result is 61,
    where the exact product 61.5 would give 62. *)
Lemma pacing_is_rounded_in_floats :
  words fortyOneWords = 41 /\
  calculateWPM fortyOneWords 40 = 61%number /\
  pacing fortyOneWords 40 61 /\
  Js.round (41 / 40 * 60)%Q = 62%Z.
Proof.
  assert (W : words fortyOneWords = 41) by (vm_compute; reflexivity).
  assert (C : calculateWPM fortyOneWords 40 = 61%number)
    by (vm_compute; reflexivity).
  split; [exact W|]. split; [exact C|]. split; [|vm_compute; reflexivity].
  rewrite <- C.
  change (calculateWPM fortyOneWords 40)
    with (calculateWPM (fst (answered fortyOneWords 40))
            (snd (answered fortyOneWords 40))).
  apply calculateWPM_answered. reflexivity.
Qed.

(** C7. In every round whose request succeeds, the pacing stored in the
    current metrics is computed by the client from the captured text and
    the reported duration, whatever pacing the endpoint returned: for a
    positive duration it is round(words / seconds x 60), the float
    product of the float quotient rounded to the nearest whole number;
    it is 0 when the duration is not positive or the text is blank, and
    not a number when the duration is not a number; the other metrics
    are the endpoint's.  Five words in three seconds give 100. *)
Theorem pacing_is_computed_by_the_client : forall w i t d status data,
  nth_error (loops w) i = Some AwaitCapture ->
  isRunningRef w = true ->
  ok status = true ->
  (exists w',
     run [Settle i (CaptureEnded t d); Settle i (FetchResponded status);
          Settle i (BodyRead data)] w = Some w' /\
     (Js.ltb 0 d = true -> pacing t d (pacing_wpm (stats (state w')))) /\
     (Js.leb d 0 = true \/ blank t = true ->
      pacing_wpm (stats (state w')) = 0%number) /\
     (Js.isNaN d = true -> blank t = false ->
      pacing_wpm (stats (state w')) = S754_nan) /\
     confidence_score (stats (state w')) = confidence_score (analysis data) /\
     clarity_score (stats (state w')) = clarity_score (analysis data) /\
     tone (stats (state w')) = tone (analysis data) /\
     feedback_text (stats (state w')) = feedback_text (analysis data)) /\
  calculateWPM "one two three four five" 3 = 100%number /\
  pacing "one two three four five" 3 100.
Proof.
  intros w i t d status data Hs Hrun Hok. split.
  - destruct (successful_round w i t d status data Hs Hrun Hok)
      as (w' & E & S & _).
    exists w'. split; [assumption|]. rewrite S. cbn [stats measured
      confidence_score pacing_wpm clarity_score tone feedback_text].
    repeat apply conj; try reflexivity.
    + apply calculateWPM_answered.
    + apply calculateWPM_answered_nonpositive.
    + apply calculateWPM_answered_nan.
  - assert (C : calculateWPM "one two three four five" 3 = 100%number)
      by (vm_compute; reflexivity).
    split; [exact C|]. rewrite <- C.
    change (calculateWPM "one two three four five" 3)
      with (calculateWPM (fst (answered "one two three four five" 3))
              (snd (answered "one two three four five" 3))).
    apply calculateWPM_answered. reflexivity.
Qed.

Lemma pacing_is_computed_by_the_client_witness :
  nth_error (loops listeningWorld) 0 = Some AwaitCapture /\
  isRunningRef listeningWorld = true /\
  ok 200 = true /\
  Js.ltb 0 3 = true /\
  exists w',
    run [Settle 0 (CaptureEnded "one two three four five" 3);
         Settle 0 (FetchResponded 200);
         Settle 0 (BodyRead sampleAnswer)] listeningWorld = Some w' /\
    pacing "one two three four five" 3 (pacing_wpm (stats (state w'))).
Proof.
  assert (H1 : nth_error (loops listeningWorld) 0 = Some AwaitCapture)
    by reflexivity.
  assert (H2 : isRunningRef listeningWorld = true) by reflexivity.
  assert (H3 : ok 200 = true) by reflexivity.
  assert (H4 : Js.ltb 0 3 = true) by reflexivity.
  repeat split; try assumption.
  destruct (pacing_is_computed_by_the_client listeningWorld 0
              "one two three four five" 3%number 200%Z sampleAnswer H1 H2 H3)
    as ((w' & E & P & _) & _).
  exists w'. split; [assumption|]. exact (P H4).
Defined.

(* ================================================================== *)
(** ** Silence *)

(** C3, as stated, fails: after a silent capture the user turn appended
    to the stored history has the empty text; the placeholder sentence
    is in the posted message list only. *)
Lemma silent_turn_is_stored_empty :
  exists w,
    run [Start; Settle 0 SpeakEnded; Settle 0 (CaptureEnded "" 0)]
      initialWorld = Some w /\
    phase (state w) = processing /\
    history (state w) =
      [{| role := assistant; content := OPENING_QUESTION |};
       {| role := user; content := "" |}] /\
    ~ In {| role := user; content := SILENT_ANSWER |} (history (state w)) /\
    requests w =
      [[{| role := assistant; content := OPENING_QUESTION |};
        {| role := user; content := SILENT_ANSWER |}]].
Proof.
  eexists. split; [vm_compute; reflexivity|]. simpl.
  repeat split; try reflexivity.
  intros [H|[H|[]]]; discriminate H.
Qed.

(** C3, amended. When capture resolves with empty or white-space-only
    text the loop still enters processing and appends a user turn to the
    stored history, whose text is the empty string; the placeholder
    sentence is the text of the user turn in the posted message list.
    When the request succeeds the round has added one user turn and one
    assistant turn to the history, the pacing is 0 and the phase is
    speaking. *)
Theorem silent_round : forall w i t d status data,
  nth_error (loops w) i = Some AwaitCapture ->
  isRunningRef w = true ->
  blank t = true ->
  ok status = true ->
  (exists w1,
     step (Settle i (CaptureEnded t d)) w = Some w1 /\
     phase (state w1) = processing /\
     history (state w1) =
       history (state w) ++ [{| role := user; content := "" |}] /\
     requests w1 =
       (Js.slice_last 10 (history (state w))
        ++ [{| role := user; content := SILENT_ANSWER |}]) :: requests w) /\
  (exists w',
     run [Settle i (CaptureEnded t d); Settle i (FetchResponded status);
          Settle i (BodyRead data)] w = Some w' /\
     history (state w') =
       history (state w)
       ++ [{| role := user; content := "" |};
           {| role := assistant; content := reply data |}] /\
     pacing_wpm (stats (state w')) = 0%number /\
     phase (state w') = speaking).
Proof.
  intros w i t d status data Hs Hrun Hb Hok. split.
  - destruct (capture_segment w i t d Hs Hrun)
      as (w1 & E & S & _ & _ & R & _).
    exists w1. rewrite S, R. unfold stored, answered. rewrite Hb. simpl.
    repeat split; assumption || reflexivity.
  - destruct (successful_round w i t d status data Hs Hrun Hok)
      as (w' & E & S & _).
    exists w'. rewrite S. unfold stored, answered. rewrite Hb. simpl.
    repeat split; assumption || reflexivity.
Qed.

Lemma silent_round_witness :
  nth_error (loops listeningWorld) 0 = Some AwaitCapture /\
  isRunningRef listeningWorld = true /\
  blank "" = true /\
  ok 200 = true /\
  exists w',
    run [Settle 0 (CaptureEnded "" 0); Settle 0 (FetchResponded 200);
         Settle 0 (BodyRead sampleAnswer)] listeningWorld = Some w' /\
    pacing_wpm (stats (state w')) = 0%number.
Proof.
  assert (H1 : nth_error (loops listeningWorld) 0 = Some AwaitCapture)
    by reflexivity.
  assert (H2 : isRunningRef listeningWorld = true) by reflexivity.
  assert (H3 : blank "" = true) by reflexivity.
  assert (H4 : ok 200 = true) by reflexivity.
  repeat split; try assumption.
  destruct (silent_round listeningWorld 0 "" 0%number 200%Z sampleAnswer
              H1 H2 H3 H4) as (_ & w' & E & _ & P & _).
  exists w'. split; assumption.
Defined.

(* ================================================================== *)
(** ** end() *)

(** C1, at the await of the response body.  [end()] leaves the session
    idle with the loop parked at [const data = await res.json()]; when the
    body arrives the loop dispatches RECEIVE_RESPONSE and START_SPEAKING
    without reading the run flag, speaks the reply, and returns after the
    speech with the phase left at speaking. *)
Theorem end_while_reading_the_body_is_overwritten :
  exists w1 w2,
    run endedWhileReading initialWorld = Some w1 /\
    isRunningRef w1 = false /\
    phase (state w1) = idle /\
    loops w1 = [AwaitBody "I led a migration" 4] /\
    run [Settle 0 (BodyRead sampleAnswer); Settle 0 SpeakEnded] w1
      = Some w2 /\
    loops w2 = [] /\
    phase (state w2) = speaking /\
    history (state w2) =
      history (state w1)
      ++ [{| role := assistant; content := reply sampleAnswer |}] /\
    length (allStats (state w2)) = S (length (allStats (state w1))) /\
    stats (state w2) = measured "I led a migration" 4 sampleAnswer /\
    spoken w2 = reply sampleAnswer :: spoken w1.
Proof.
  exists (match run endedWhileReading initialWorld with
          | Some w => w
          | None => initialWorld
          end).
  exists (match run (endedWhileReading
                     ++ [Settle 0 (BodyRead sampleAnswer);
                         Settle 0 SpeakEnded]) initialWorld with
          | Some w => w
          | None => initialWorld
          end).
  repeat apply conj; vm_compute; reflexivity.
Qed.

(** At every other suspension point the settlement that follows [end()]
    leaves the phase idle and history, stats and allStats untouched, and
    the loop returns. *)
Lemma end_is_final_elsewhere : forall w i s r w1 w2,
  nth_error (loops w) i = Some s ->
  (forall ft d data, (s, r) <> (AwaitBody ft d, BodyRead data)) ->
  step End w = Some w1 ->
  step (Settle i r) w1 = Some w2 ->
  phase (state w2) = idle /\
  history (state w2) = history (state w) /\
  stats (state w2) = stats (state w) /\
  allStats (state w2) = allStats (state w) /\
  loops w2 = park i None (loops w).
Proof.
  intros w i s r w1 w2 Hs Hne Hend H.
  unfold step in Hend. unfold_loop. simpl in Hend. injection Hend as <-.
  apply step_settle in H.
  destruct H as (s' & m & next & w3 & Hs' & Hm & Hrun & ->).
  simpl in Hs'. rewrite Hs in Hs'. injection Hs' as <-.
  destruct s, r; simpl in Hm; try discriminate;
    try (exfalso; eapply Hne; reflexivity);
    injection Hm as <-; unfold_loop; split_paths Hrun;
    injection Hrun as <- <-; simpl; repeat split; reflexivity.
Qed.

(* ================================================================== *)
(** ** The route handlers *)

Section Routes.
Import Json.

Lemma toneOfName_toneName : forall t, toneOfName (toneName t) = Some t.
Proof. destruct t; reflexivity. Qed.

Lemma toneOfName_inv : forall s t, toneOfName s = Some t -> s = toneName t.
Proof.
  intros s t. unfold toneOfName.
  destruct (String.eqb_spec s "professional");
    [intros [= <-]; assumption|].
  destruct (String.eqb_spec s "uncertain"); [intros [= <-]; assumption|].
  destruct (String.eqb_spec s "casual"); [intros [= <-]; assumption|].
  destruct (String.eqb_spec s "aggressive"); [intros [= <-]; assumption|].
  discriminate.
Qed.

(** Reading a typed answer back from its JSON text. *)
Lemma toResponse_ofResponse : forall r,
  pacing_wpm (analysis r) = 0%number -> toResponse (ofResponse r) = Some r.
Proof.
  intros [r [c p l t f]] H. simpl in H. subst p.
  unfold toResponse, ofResponse, ofMetrics. simpl.
  rewrite toneOfName_toneName. reflexivity.
Qed.

Lemma accepted_messages : forall request,
  accepted request = true ->
  exists body items,
    request = Sent body /\
    prop body "messages" = inr (Some (Arr items)) /\
    Route.validate items = Next tt.
Proof.
  intros [|body] H; simpl in H; [discriminate|].
  destruct (prop body "messages") as [e|[[| | | |items|]|]] eqn:E;
    try discriminate.
  destruct (Route.validate items) as [| |[]] eqn:V; try discriminate.
  eauto.
Qed.

(** [app/api/chat/route.ts]: every accepted request is answered with
    status 200, by the payload itself when it is usable and by the
    fallback otherwise. *)
Lemma Route_POST_accepted : forall request upstream,
  accepted request = true ->
  Route.POST request upstream =
    match upstream with
    | Payload parsed =>
        if usable parsed then json parsed
        else json (ofResponse Route.FALLBACK_RESPONSE)
    | _ => json (ofResponse Route.FALLBACK_RESPONSE)
    end.
Proof.
  intros request upstream H.
  destruct (accepted_messages request H) as (body & items & -> & Hm & Hv).
  cbv beta iota delta [Route.POST Route.tryPOST read andThen].
  rewrite Hm. simpl. rewrite Hv.
  destruct upstream as [err| | |parsed]; try reflexivity.
  unfold usable.
  destruct (prop parsed "reply") as [e|r] eqn:Er; simpl.
  - reflexivity.
  - destruct (isString r); simpl.
    + destruct (prop parsed "analysis") as [e|a] eqn:Ea; simpl.
      * destruct parsed; discriminate.
      * destruct (truthy a); reflexivity.
    + destruct (prop parsed "analysis"); reflexivity.
Qed.

Lemma Qcompare_inject_Z : forall a b,
  Qcompare (inject_Z a) (inject_Z b) = Z.compare a b.
Proof.
  intros a b. unfold Qcompare, inject_Z. simpl. rewrite !Z.mul_1_r.
  reflexivity.
Qed.

Lemma Qmin_inject_Z : forall a b,
  Qminmax.Qmin (inject_Z a) (inject_Z b) = inject_Z (Z.min a b).
Proof.
  intros a b. unfold Qminmax.Qmin, GenericMinMax.gmin, Z.min.
  rewrite Qcompare_inject_Z. destruct (a ?= b)%Z; reflexivity.
Qed.

Lemma Qmax_inject_Z : forall a b,
  Qminmax.Qmax (inject_Z a) (inject_Z b) = inject_Z (Z.max a b).
Proof.
  intros a b. unfold Qminmax.Qmax, GenericMinMax.gmax, Z.max.
  rewrite Qcompare_inject_Z. destruct (a ?= b)%Z; reflexivity.
Qed.

(** [clampScore] rounds and clamps. *)
Lemma clampScore_clamped : forall v,
  clamped (inr v) (SanitizingRoute.clampScore v 0 100).
Proof.
  intros v. unfold SanitizingRoute.clampScore, clamped.
  destruct v as [[| |q| | |]|]; try reflexivity.
  exists (Js.round q). split; [apply nearest_round|].
  change 100%Q with (inject_Z 100). change 0%Q with (inject_Z 0).
  rewrite Qmin_inject_Z, Qmax_inject_Z. reflexivity.
Qed.

Lemma clamped_range : forall field score,
  clamped field score -> (0 <= score)%Q /\ (score <= 100)%Q.
Proof.
  intros field score H. unfold clamped in H.
  assert (Z0 : score = 0%Q -> (0 <= score)%Q /\ (score <= 100)%Q)
    by (intros ->; split; discriminate).
  destruct field as [e|[[| |q| | |]|]]; auto.
  destruct H as (n & _ & ->).
  change 0%Q with (inject_Z 0). change 100%Q with (inject_Z 100).
  rewrite <- !Zle_Qle. lia.
Qed.

Lemma sanitized_range : forall raw m,
  sanitized raw m ->
  (0 <= confidence_score m)%Q /\ (confidence_score m <= 100)%Q /\
  (0 <= clarity_score m)%Q /\ (clarity_score m <= 100)%Q /\
  pacing_wpm m = 0%number.
Proof.
  intros raw m (C & L & P & _).
  destruct (clamped_range _ _ C). destruct (clamped_range _ _ L). auto.
Qed.

Lemma sanitizeAnalysis_total : forall raw,
  raw <> Null ->
  exists m, SanitizingRoute.sanitizeAnalysis raw = Next m /\ sanitized raw m.
Proof.
  intros raw Hn. unfold SanitizingRoute.sanitizeAnalysis, read, sanitized.
  destruct raw as [| | | | |f]; try contradiction; simpl;
    eexists; (split; [reflexivity|]); simpl;
    try (repeat apply conj; reflexivity).
  split; [apply clampScore_clamped|]. split; [apply clampScore_clamped|].
  split; [reflexivity|]. split.
  - destruct (lookup "tone" f) as [[| | |t| |]|]; try reflexivity.
    destruct (toneOfName t) as [t'|] eqn:E.
    + left. apply toneOfName_inv in E. subst t. destruct t'; reflexivity.
    + right. split.
      * intros t' <-. rewrite toneOfName_toneName in E. discriminate.
      * match goal with |- (if ?b then _ else _) = _ => destruct b end;
          reflexivity.
  - destruct (lookup "feedback_text" f) as [[| | |t| |]|]; reflexivity.
Qed.

Lemma usable_not_null : forall parsed,
  usable parsed = true ->
  exists r a,
    prop parsed "reply" = inr (Some (Str r)) /\
    prop parsed "analysis" = inr (Some a) /\
    truthy (Some a) = true /\ a <> Null.
Proof.
  intros parsed H. unfold usable in H.
  destruct (prop parsed "reply") as [e|[[| | |r| |]|]]; try discriminate;
    try (destruct (prop parsed "analysis"); discriminate).
  destruct (prop parsed "analysis") as [e|[a|]]; try discriminate.
  simpl in H. exists r, a. repeat split; try assumption.
  intros ->. discriminate.
Qed.

Lemma accepted_by_the_sanitizing_route : forall request,
  accepted request = true ->
  exists body items,
    request = Sent body /\ prop body "messages" = inr (Some (Arr items)).
Proof.
  intros request H.
  destruct (accepted_messages request H) as (body & items & E & Hm & _).
  eauto.
Qed.

(** The sanitizing variant: a usable payload is answered with status
    200, its reply and the sanitized metrics. *)
Lemma SanitizingRoute_POST_usable : forall request parsed,
  accepted request = true ->
  usable parsed = true ->
  exists r a m,
    prop parsed "reply" = inr (Some (Str r)) /\
    prop parsed "analysis" = inr (Some a) /\
    sanitized a m /\
    SanitizingRoute.POST request (Payload parsed) =
      json (ofResponse {| reply := r; analysis := m |}).
Proof.
  intros request parsed H Hu.
  destruct (accepted_by_the_sanitizing_route request H)
    as (body & items & -> & Hm).
  destruct (usable_not_null parsed Hu) as (r & a & Hr & Ha & Ht & Hn).
  destruct (sanitizeAnalysis_total a Hn) as (m & Es & Hs).
  exists r, a, m.
  split; [assumption|]. split; [assumption|]. split; [assumption|].
  cbv beta iota delta [SanitizingRoute.POST SanitizingRoute.tryPOST read
                         andThen].
  rewrite Hm. simpl. rewrite Hr, Ha, Ht, Es. reflexivity.
Qed.

(** The sanitizing variant: every other outcome of the upstream call is
    answered with an error status. *)
Lemma SanitizingRoute_POST_unusable : forall request upstream,
  accepted request = true ->
  answered_by upstream = false ->
  ok (status (SanitizingRoute.POST request upstream)) = false.
Proof.
  intros request upstream H Hu.
  destruct (accepted_by_the_sanitizing_route request H)
    as (body & items & -> & Hm).
  cbv beta iota delta [SanitizingRoute.POST SanitizingRoute.tryPOST read
                         andThen].
  rewrite Hm. simpl.
  destruct upstream as [err| | |parsed]; try reflexivity.
  simpl in Hu. unfold usable in Hu.
  destruct (prop parsed "reply") as [e|r] eqn:Er.
  - destruct e; reflexivity.
  - destruct r as [[| | |r| |]|]; try reflexivity.
    destruct (prop parsed "analysis") as [e|a] eqn:Ea.
    + destruct parsed; discriminate.
    + simpl in Hu. destruct a as [a|]; [|reflexivity].
      rewrite Hu. reflexivity.
Qed.

End Routes.

(* ================================================================== *)
(** ** Payload validation *)

(** C5, as stated, fails.  [app/api/chat/route.ts] hands a payload with a
    string confidence_score, or with a score of 250 and an unknown tone,
    back unchanged; the sanitizing variant keeps the reply and turns the
    string score into 0; neither answers with the fallback.  The
    sanitizing variant answers a payload without analysis with status
    502. *)
Lemma wrong_type_is_not_answered_by_the_fallback :
  accepted sampleRequest = true /\
  Route.POST sampleRequest (Json.Payload wrongTypePayload)
    = Json.json wrongTypePayload /\
  wrongTypePayload <> Json.ofResponse Route.FALLBACK_RESPONSE /\
  Json.toResponse wrongTypePayload = None /\
  Route.POST sampleRequest (Json.Payload outOfRangePayload)
    = Json.json outOfRangePayload /\
  SanitizingRoute.POST sampleRequest (Json.Payload wrongTypePayload)
    = Json.json
        (Json.ofResponse
           {| reply := "Good start.";
              analysis :=
                {| confidence_score := 0%Q; pacing_wpm := 0;
                   clarity_score := 70%Q; tone := casual;
                   feedback_text := "Name one result." |} |}) /\
  Json.status (SanitizingRoute.POST sampleRequest
                 (Json.Payload replyOnlyPayload)) = 502%Z.
Proof.
  repeat apply conj; try (vm_compute; reflexivity).
  intros H. vm_compute in H. discriminate H.
Qed.

(** C5, amended.  For an accepted request, [app/api/chat/route.ts]
    answers a payload without a string reply or without a truthy analysis
    with the fallback reply and metrics (status 200), and every other
    payload with the payload itself, unchanged.  The sanitizing variant
    answers a payload with a string reply and a truthy analysis with that
    reply and sanitized metrics (scores rounded into 0..100 and 0 when not
    a number, pacing 0, unknown tone replaced by the default, feedback
    that is not a string by the empty string), and every other payload
    with an error status. *)
Theorem payload_validation : forall request parsed,
  accepted request = true ->
  (usable parsed = false ->
   Route.POST request (Json.Payload parsed)
     = Json.json (Json.ofResponse Route.FALLBACK_RESPONSE)) /\
  (usable parsed = true ->
   Route.POST request (Json.Payload parsed) = Json.json parsed) /\
  (usable parsed = true ->
   exists r a m,
     Json.prop parsed "reply" = inr (Some (Json.Str r)) /\
     Json.prop parsed "analysis" = inr (Some a) /\
     sanitized a m /\
     SanitizingRoute.POST request (Json.Payload parsed)
       = Json.json (Json.ofResponse {| reply := r; analysis := m |})) /\
  (usable parsed = false ->
   ok (Json.status (SanitizingRoute.POST request (Json.Payload parsed)))
     = false).
Proof.
  intros request parsed H. repeat apply conj; intros Hu.
  - rewrite (Route_POST_accepted _ _ H), Hu. reflexivity.
  - rewrite (Route_POST_accepted _ _ H), Hu. reflexivity.
  - apply SanitizingRoute_POST_usable; assumption.
  - apply SanitizingRoute_POST_unusable; assumption.
Qed.

Lemma payload_validation_witness :
  accepted sampleRequest = true /\
  usable replyOnlyPayload = false /\
  usable fractionalPayload = true /\
  Route.POST sampleRequest (Json.Payload replyOnlyPayload)
    = Json.json (Json.ofResponse Route.FALLBACK_RESPONSE) /\
  exists r a m,
    Json.prop fractionalPayload "analysis" = inr (Some a) /\
    sanitized a m /\
    SanitizingRoute.POST sampleRequest (Json.Payload fractionalPayload)
      = Json.json (Json.ofResponse {| reply := r; analysis := m |}).
Proof.
  assert (H : accepted sampleRequest = true) by reflexivity.
  assert (Hu : usable replyOnlyPayload = false) by reflexivity.
  assert (Hf : usable fractionalPayload = true) by reflexivity.
  repeat apply conj; try assumption.
  - exact (proj1 (payload_validation sampleRequest replyOnlyPayload H) Hu).
  - destruct (proj1 (proj2 (proj2
                (payload_validation sampleRequest fractionalPayload H))) Hf)
      as (r & a & m & _ & A & S & E).
    exists r, a, m. auto.
Defined.

(** The sanitizing variant on a payload with fractional scores: 72.5
    becomes 73, -0.3 becomes 0, and the feedback that is not a string
    becomes empty. *)
Lemma sanitizing_route_rounds_and_clamps :
  SanitizingRoute.POST sampleRequest (Json.Payload fractionalPayload)
  = Json.json
      (Json.ofResponse
         {| reply := "Good start.";
            analysis :=
              {| confidence_score := 73%Q; pacing_wpm := 0;
                 clarity_score := 0%Q; tone := uncertain;
                 feedback_text := "" |} |}).
Proof. vm_compute. reflexivity. Qed.

(* ================================================================== *)
(** ** Failures of the request *)





(* ================================================================== *)
(** ** Capture *)

Section Capture.
Import Recognition.

Lemma append_nil_r : forall s : string, (s ++ "")%string = s.
Proof. induction s as [|c s IH]; simpl; [|rewrite IH]; reflexivity. Qed.

Lemma append_assoc : forall a b c : string,
  ((a ++ b) ++ c)%string = (a ++ (b ++ c))%string.
Proof.
  induction a as [|x a IH]; intros b c; simpl; [|rewrite IH]; reflexivity.
Qed.

Lemma concat_cons : forall x xs,
  String.concat "" (x :: xs) = (x ++ String.concat "" xs)%string.
Proof.
  intros x [|y ys]; simpl; [rewrite append_nil_r|]; reflexivity.
Qed.

(** The loop of [onresult] separates the finalized from the provisional
    text. *)
Lemma collect_from : forall results f p,
  fold_left
    (fun acc result =>
       if isFinal result then ((fst acc ++ text result)%string, snd acc)
       else (fst acc, (snd acc ++ text result)%string))
    results (f, p)
  = ((f ++ finalized results)%string, (p ++ provisional results)%string).
Proof.
  induction results as [|r rs IH]; intros f p.
  - simpl. rewrite !append_nil_r. reflexivity.
  - unfold finalized, provisional in *. cbn [fold_left filter].
    destruct (isFinal r); cbn [negb map fst snd];
      rewrite IH, ?concat_cons, ?append_assoc; reflexivity.
Qed.

Lemma collect_spec : forall results,
  collect results = (finalized results, provisional results).
Proof. intros results. unfold collect. apply collect_from. Qed.

Lemma nth_error_setAt_eq : forall (A : Type) (l : list A) i a b,
  nth_error l i = Some b -> nth_error (setAt i a l) i = Some a.
Proof.
  induction l as [|x l IH]; intros [|i] a b H; simpl in *;
    try discriminate; eauto.
Qed.

Lemma nth_error_setAt_neq : forall (A : Type) (l : list A) i j a,
  i <> j -> nth_error (setAt j a l) i = nth_error l i.
Proof.
  induction l as [|x l IH]; intros [|i] [|j] a H; simpl; auto;
    try contradiction.
Qed.

Lemma length_setAt : forall (A : Type) (l : list A) i a,
  length (setAt i a l) = length l.
Proof.
  induction l as [|x l IH]; intros [|i] a; simpl; auto.
Qed.

Lemma focus_stored : forall c l,
  focus {| cells := cellsOf c; calls := l |} (callOf c) = c.
Proof. intros [] l. reflexivity. Qed.

(** One step of the hook, seen from the call [i]. *)
Lemma step_call : forall supported hook e hook' i call',
  step supported hook e = Some hook' ->
  nth_error (calls hook') i = Some call' ->
  match e with
  | Listen =>
      nth_error (calls hook) i = Some call' \/
      (i = length (calls hook) /\
       call' = callOf (startListening supported (cells hook)))
  | Fire j h =>
      supported = true /\ j < length (calls hook) /\
      if Nat.eqb i j then
        exists call,
          nth_error (calls hook) i = Some call /\
          call' = callOf (handle (focus hook call) h)
      else nth_error (calls hook) i = Some call'
  end.
Proof.
  intros supported hook e hook' i call' H Hn. destruct e as [|j h].
  - simpl in H. injection H as <-. simpl in Hn.
    destruct (Nat.lt_ge_cases i (length (calls hook))) as [L|L].
    + left. rewrite nth_error_app1 in Hn by assumption. assumption.
    + right. rewrite nth_error_app2 in Hn by assumption.
      destruct (i - length (calls hook)) as [|k] eqn:E; simpl in Hn.
      * injection Hn as <-. split; [lia | reflexivity].
      * destruct k; discriminate.
  - simpl in H. destruct supported; [|discriminate].
    destruct (nth_error (calls hook) j) as [call|] eqn:Ej; [|discriminate].
    injection H as <-. simpl in Hn. split; [reflexivity|]. split.
    + apply nth_error_Some. congruence.
    + destruct (Nat.eqb_spec i j) as [->|Hne].
      * exists call. split; [assumption|].
        rewrite (nth_error_setAt_eq _ _ _ _ _ Ej) in Hn. congruence.
      * rewrite nth_error_setAt_neq in Hn by assumption. assumption.
Qed.

Lemma step_length : forall supported hook e hook',
  step supported hook e = Some hook' ->
  length (calls hook) <= length (calls hook').
Proof.
  intros supported hook [|j h] hook' H; simpl in H.
  - injection H as <-. simpl. rewrite length_app. lia.
  - destruct supported; [|discriminate].
    destruct (nth_error (calls hook) j); [|discriminate].
    injection H as <-. simpl. rewrite length_setAt. lia.
Qed.

(** The variable [finalTranscript] of every call holds the finalized
    text of the last result event of its own recognizer. *)
Lemma said_from : forall supported es hook hook' acc,
  (forall i call,
     nth_error (calls hook) i = Some call -> said call = finalized (acc i)) ->
  (forall i, length (calls hook) <= i -> acc i = []) ->
  run supported es hook = Some hook' ->
  forall i call,
    nth_error (calls hook') i = Some call ->
    said call
    = finalized
        (fold_left
           (fun a e =>
              match e with
              | Fire j (onresult results) =>
                  if Nat.eqb i j then results else a
              | _ => a
              end) es (acc i)).
Proof.
  intros supported. induction es as [|e es IH];
    intros hook hook' acc Hsaid Hnew H i call Hn; simpl in H.
  - injection H as <-. apply Hsaid. assumption.
  - destruct (step supported hook e) as [hook1|] eqn:E; [|discriminate].
    cbn [fold_left].
    apply (IH hook1 hook'
             (fun k =>
                match e with
                | Fire j (onresult results) =>
                    if Nat.eqb k j then results else acc k
                | _ => acc k
                end)); try assumption.
    + intros k call1 Hk.
      pose proof (step_call _ _ _ _ _ _ E Hk) as S.
      destruct e as [|j h].
      * destruct S as [S|[-> ->]]; [apply Hsaid; assumption|].
        rewrite (Hnew (length (calls hook))) by lia.
        destruct supported; reflexivity.
      * destruct S as (_ & _ & S).
        destruct (Nat.eqb k j) eqn:Ekj.
        -- destruct S as (call0 & H0 & ->).
           destruct h; simpl; try (apply Hsaid; assumption).
           rewrite collect_spec. reflexivity.
        -- destruct h; apply Hsaid; assumption.
    + intros k Hk. pose proof (step_length _ _ _ _ E) as L.
      destruct e as [|j h]; [apply Hnew; lia|].
      destruct h; try (apply Hnew; lia).
      destruct (Nat.eqb_spec k j) as [->|Hne]; [|apply Hnew; lia].
      simpl in E. destruct supported; [|discriminate].
      destruct (nth_error (calls hook) j) eqn:Ej; [|discriminate].
      assert (j < length (calls hook)) by (apply nth_error_Some; congruence).
      injection E as <-. simpl in Hk. rewrite length_setAt in Hk. lia.
Qed.

Lemma said_is_finalized : forall supported es hook i call,
  run supported es initialHook = Some hook ->
  nth_error (calls hook) i = Some call ->
  said call = finalized (lastResults i es).
Proof.
  intros supported es hook i call H Hn. unfold lastResults.
  apply (said_from supported es initialHook hook (fun _ => [])); auto.
  intros k c Hk. destruct k; discriminate.
Qed.

Lemma fire : forall hook i call h,
  nth_error (calls hook) i = Some call ->
  exists hook',
    step true hook (Fire i h) = Some hook' /\
    cells hook' = cellsOf (handle (focus hook call) h) /\
    nth_error (calls hook') i = Some (callOf (handle (focus hook call) h)) /\
    promiseOf i hook' = Some (promise (handle (focus hook call) h)).
Proof.
  intros hook i call h Hn. simpl. rewrite Hn. eexists.
  split; [reflexivity|]. unfold promiseOf. simpl.
  rewrite (nth_error_setAt_eq _ _ _ _ _ Hn). auto.
Qed.

(** C9, as stated, fails for a capture that the recognizer ends with
    the no-speech error after it has finalized a segment: the promise
    resolves with the empty text, not with the finalized one. *)
Lemma no_speech_discards_the_finalized_text :
  exists hook,
    run true
      [Listen; Fire 0 (onstart 1000);
       Fire 0 (onresult [ {| isFinal := true; text := "Tell me " |} ]);
       Fire 0 (onerror "no-speech" 9000)] initialHook = Some hook /\
    promiseOf 0 hook
      = Some (Resolved {| transcript := ""; duration := 8 |}) /\
    finalized [ {| isFinal := true; text := "Tell me " |} ] = "Tell me ".
Proof.
  eexists. split; [vm_compute; reflexivity|]. split; reflexivity.
Qed.

(** C9, amended.  For every call of startListening, whatever calls and
    events came before: while its promise is pending, its variable
    finalTranscript holds the concatenation of the results that were
    final in the last result event of its own recognizer.  When the
    recognizer then reports its end, the promise resolves with that
    text; the provisional text of the event, which the live transcript
    shows, is not part of it.  When the recognizer reports the
    no-speech error instead, the promise resolves with the empty text,
    whatever was finalized; any other error rejects it. *)
Theorem resolved_transcript_is_the_finalized_text :
  forall es hook i call now,
  run true es initialHook = Some hook ->
  nth_error (calls hook) i = Some call ->
  answer call = Pending ->
  said call = finalized (lastResults i es) /\
  (exists hook',
     step true hook (Fire i (onend now)) = Some hook' /\
     promiseOf i hook'
       = Some (Resolved {| transcript := finalized (lastResults i es);
                           duration := elapsed now (focus hook call) |})) /\
  (forall results,
   exists hook1 hook2,
     step true hook (Fire i (onresult results)) = Some hook1 /\
     cellTranscript (cells hook1)
       = {| final := finalized results;
            interim := provisional results;
            wordCount :=
              countWords (finalized results ++ provisional results) |} /\
     step true hook1 (Fire i (onend now)) = Some hook2 /\
     promiseOf i hook2
       = Some (Resolved {| transcript := finalized results;
                           duration := elapsed now (focus hook call) |})) /\
  (exists hook',
     step true hook (Fire i (onerror "no-speech" now)) = Some hook' /\
     promiseOf i hook'
       = Some (Resolved {| transcript := "";
                           duration := elapsed now (focus hook call) |})) /\
  (forall error,
   error <> "no-speech" ->
   exists hook',
     step true hook (Fire i (onerror error now)) = Some hook' /\
     promiseOf i hook'
       = Some (Rejected ("Speech recognition error: " ++ error)%string)).
Proof.
  intros es hook i call now H Hn Hp.
  pose proof (said_is_finalized true es hook i call H Hn) as Hs.
  split; [exact Hs|]. repeat apply conj.
  - destruct (fire hook i call (onend now) Hn) as (hook' & E & _ & _ & P).
    exists hook'. split; [exact E|]. rewrite P. simpl.
    rewrite Hp, Hs. reflexivity.
  - intros results.
    destruct (fire hook i call (onresult results) Hn)
      as (hook1 & E1 & C1 & N1 & _).
    destruct (fire hook1 i _ (onend now) N1) as (hook2 & E2 & _ & _ & P2).
    exists hook1, hook2. split; [exact E1|]. split.
    + rewrite C1. simpl. rewrite collect_spec. reflexivity.
    + split; [exact E2|]. rewrite P2.
      destruct hook1 as [cells1 calls1]. simpl in C1. subst cells1.
      rewrite focus_stored. simpl. rewrite collect_spec. simpl.
      rewrite Hp. reflexivity.
  - destruct (fire hook i call (onerror "no-speech" now) Hn)
      as (hook' & E & _ & _ & P).
    exists hook'. split; [exact E|]. rewrite P. simpl. rewrite Hp.
    reflexivity.
  - intros error Hne.
    destruct (fire hook i call (onerror error now) Hn)
      as (hook' & E & _ & _ & P).
    exists hook'. split; [exact E|]. rewrite P. simpl. rewrite Hp.
    destruct (String.eqb_spec error "no-speech"); [contradiction|].
    reflexivity.
Qed.

(** The second capture of [heard] is ended by its recognizer. *)
Lemma resolved_transcript_is_the_finalized_text_witness :
  run true heard initialHook = Some heardHook /\
  nth_error (calls heardHook) 1
    = Some {| said := "Tell me "; answer := Pending |} /\
  interim (cellTranscript (cells heardHook)) = "about" /\
  exists hook',
    step true heardHook (Fire 1 (onend 4000)) = Some hook' /\
    promiseOf 1 hook'
      = Some (Resolved {| transcript := "Tell me "; duration := 3 |}).
Proof.
  assert (H : run true heard initialHook = Some heardHook)
    by (vm_compute; reflexivity).
  assert (Hn : nth_error (calls heardHook) 1
               = Some {| said := "Tell me "; answer := Pending |})
    by (vm_compute; reflexivity).
  split; [exact H|]. split; [exact Hn|]. split; [vm_compute; reflexivity|].
  destruct (resolved_transcript_is_the_finalized_text heard heardHook 1 _
              4000 H Hn eq_refl) as (_ & (hook' & E & P) & _).
  exists hook'. split; [exact E|]. rewrite P. vm_compute. reflexivity.
Defined.

End Capture.

(* ================================================================== *)
(** ** Phases *)



Lemma phaseInvariant_step : forall e w w',
  phaseInvariant w -> calm e w = true -> step e w = Some w' ->
  phaseInvariant w'.
Proof.
  intros e w w' [Hfill Hinv] Hcalm H. unfold phaseInvariant.
  destruct e as [| |i r].
  - (* start() *)
    unfold step in H. unfold_loop. simpl in Hcalm.
    destruct (isRunningRef w) eqn:Hrun; simpl in H, Hcalm;
      injection H as <-; simpl.
    + rewrite Hrun. split; assumption.
    + destruct (loops w); [|discriminate]. simpl. split; reflexivity.
  - (* end() *)
    unfold step in H. unfold_loop. simpl in H. injection H as <-. simpl.
    split; [discriminate|].
    destruct (loops w) as [|s [|]]; auto.
  - (* a promise settles *)
    apply step_settle in H.
    destruct H as (s & m & next & w1 & Hs & Hm & Hrun & ->).
    destruct (loops w) as [|s0 [|]] eqn:El; try contradiction;
      [destruct i; discriminate|].
    destruct i as [|i]; [|destruct i; discriminate].
    injection Hs as ->.
    destruct (isRunningRef w) eqn:Hflag.
    + destruct s, r; simpl in Hm; try discriminate;
        injection Hm as <-; unfold_loop; simpl in Hrun, Hinv;
        rewrite ?Hflag in Hrun; split_paths Hrun;
        injection Hrun as <- <-; simpl;
        rewrite ?El, ?Hinv, ?Hflag; simpl; rewrite ?Hflag;
        split; reflexivity.
    + assert (Hoff : fillerPlaying w = false).
      { destruct (fillerPlaying w); [|reflexivity].
        discriminate (Hfill eq_refl). }
      destruct s, r; simpl in Hm; try discriminate;
        injection Hm as <-; unfold_loop; simpl in Hrun;
        rewrite ?Hflag in Hrun; split_paths Hrun;
        injection Hrun as <- <-; simpl;
        rewrite ?El, ?Hflag, ?Hoff; simpl; rewrite ?Hflag;
        (split; [discriminate|]);
        (destruct Hinv as [Hp|[Hr Hp]]; [|try discriminate Hr]);
        rewrite ?Hp; simpl; auto.
Qed.


Lemma runCalm_phase : forall es w w',
  phaseInvariant w -> runCalm es w = Some w' -> phaseInvariant w'.
Proof.
  induction es as [|e es IH]; intros w w' Hw H; simpl in H.
  - injection H as <-. assumption.
  - destruct (calm e w) eqn:Hc; [|discriminate].
    destruct (step e w) as [w1|] eqn:Hs; [|discriminate].
    eapply IH; [|eassumption]. eapply phaseInvariant_step; eassumption.
Qed.

Lemma phaseInvariant_initial : phaseInvariant initialWorld.
Proof. split; [discriminate|]. simpl. auto. Qed.









(* ================================================================== *)
(** * Further properties of the loop *)

Lemma extends_refl : forall (A : Type) (l : list A), extends l l.
Proof. intros A l. exists []. symmetry. apply app_nil_r. Qed.

Lemma extends_one : forall (A : Type) (l : list A) x, extends l (l ++ [x]).
Proof. intros A l x. exists [x]. reflexivity. Qed.

(** X1. History and allStats are append-only: every step of the loop
    other than a start() that passes its guard leaves the stored history
    and allStats as they were or adds entries at their end. *)
Theorem history_is_append_only : forall e w w',
  (e = Start -> isRunningRef w = true) ->
  step e w = Some w' ->
  extends (history (state w)) (history (state w')) /\
  extends (allStats (state w)) (allStats (state w')).
Proof.
  intros e w w' Hguard H. destruct e as [| |i r].
  - unfold step in H. unfold_loop. rewrite (Hguard eq_refl) in H.
    simpl in H. injection H as <-. split; apply extends_refl.
  - unfold step in H. unfold_loop. simpl in H. injection H as <-. simpl.
    split; apply extends_refl.
  - apply step_settle in H.
    destruct H as (s & m & next & w1 & Hs & Hm & Hrun & ->).
    destruct s, r; simpl in Hm; try discriminate;
      injection Hm as <-; unfold_loop; split_paths Hrun;
      injection Hrun as <- <-; simpl;
      split; auto using extends_refl, extends_one.
Qed.

Lemma history_is_append_only_witness :
  (Settle 0 (CaptureEnded "I led a migration" 4) = Start ->
   isRunningRef listeningWorld = true) /\
  step (Settle 0 (CaptureEnded "I led a migration" 4)) listeningWorld
    = Some processingWorld /\
  extends (history (state listeningWorld)) (history (state processingWorld)).
Proof.
  assert (G : Settle 0 (CaptureEnded "I led a migration" 4) = Start ->
              isRunningRef listeningWorld = true) by (intros; reflexivity).
  assert (H : step (Settle 0 (CaptureEnded "I led a migration" 4))
                listeningWorld = Some processingWorld)
    by (vm_compute; reflexivity).
  split; [exact G|]. split; [exact H|].
  exact (proj1 (history_is_append_only _ _ _ G H)).
Defined.

(** X2. While the run flag is set the error field is null in every
    reachable world: a SET_ERROR dispatched by a running loop is followed,
    in the same step, by the START_LISTENING of the next round, which
    clears it. *)
Theorem no_error_while_running : forall w,
  reachable w -> isRunningRef w = true -> error (state w) = None.
Proof.
  apply (reachable_ind
           (fun w => isRunningRef w = true -> error (state w) = None)).
  - discriminate.
  - intros e w w' IH H. destruct e as [| |i r].
    + unfold step in H. unfold_loop. split_paths H; injection H as <-;
        simpl; auto.
    + unfold step in H. unfold_loop. simpl in H. injection H as <-. simpl.
      discriminate.
    + apply step_settle in H.
      destruct H as (s & m & next & w1 & Hs & Hm & Hrun & ->).
      destruct s, r; simpl in Hm; try discriminate;
        injection Hm as <-; unfold_loop; split_paths Hrun;
        injection Hrun as <- <-; simpl; intros; auto; congruence.
Qed.

Lemma no_error_while_running_witness :
  reachable processingWorld /\
  isRunningRef processingWorld = true /\
  error (state processingWorld) = None.
Proof.
  assert (R : reachable processingWorld).
  { exists [Start; Settle 0 SpeakEnded;
            Settle 0 (CaptureEnded "I led a migration" 4)].
    vm_compute. reflexivity. }
  assert (F : isRunningRef processingWorld = true) by reflexivity.
  split; [exact R|]. split; [exact F|].
  exact (no_error_while_running processingWorld R F).
Defined.

(** X3. The loop speaks exactly the replies it stores: in every reachable
    world the texts handed to speak are, in order, the replies of the
    RECEIVE_RESPONSE dispatches. *)
Theorem spoken_are_the_stored_replies : forall w,
  reachable w -> spoken w = repliesOf (dispatched w).
Proof.
  apply reachable_ind.
  - reflexivity.
  - intros e w w' IH H. destruct e as [| |i r].
    + unfold step in H. unfold_loop. split_paths H; injection H as <-;
        simpl; congruence.
    + unfold step in H. unfold_loop. simpl in H. injection H as <-. simpl.
      assumption.
    + apply step_settle in H.
      destruct H as (s & m & next & w1 & Hs & Hm & Hrun & ->).
      destruct s, r; simpl in Hm; try discriminate;
        injection Hm as <-; unfold_loop; split_paths Hrun;
        injection Hrun as <- <-; simpl; congruence.
Qed.

Lemma spoken_are_the_stored_replies_witness :
  reachable answeredWorld /\
  spoken answeredWorld = [reply sampleAnswer; OPENING_QUESTION].
Proof.
  assert (R : reachable answeredWorld).
  { exists [Start; Settle 0 SpeakEnded;
            Settle 0 (CaptureEnded "I led a migration" 4);
            Settle 0 (FetchResponded 200); Settle 0 (BodyRead sampleAnswer)].
    vm_compute. reflexivity. }
  split; [exact R|].
  rewrite (spoken_are_the_stored_replies answeredWorld R).
  vm_compute. reflexivity.
Defined.

(** X8. The current metrics are the last entry of allStats, or the
    placeholder metrics when allStats is empty, in every reachable
    world. *)
Theorem stats_is_the_last_of_allStats : forall w,
  reachable w ->
  stats (state w) = last (allStats (state w)) EMPTY_METRICS.
Proof.
  apply reachable_ind.
  - reflexivity.
  - intros e w w' IH H. destruct e as [| |i r].
    + unfold step in H. unfold_loop. split_paths H; injection H as <-;
        simpl; auto.
    + unfold step in H. unfold_loop. simpl in H. injection H as <-. simpl.
      assumption.
    + apply step_settle in H.
      destruct H as (s & m & next & w1 & Hs & Hm & Hrun & ->).
      destruct s, r; simpl in Hm; try discriminate;
        injection Hm as <-; unfold_loop; split_paths Hrun;
        injection Hrun as <- <-; simpl; rewrite ?last_last; auto.
Qed.

Lemma stats_is_the_last_of_allStats_witness :
  reachable answeredWorld /\
  stats (state answeredWorld)
    = last (allStats (state answeredWorld)) EMPTY_METRICS.
Proof.
  assert (R : reachable answeredWorld).
  { exists [Start; Settle 0 SpeakEnded;
            Settle 0 (CaptureEnded "I led a migration" 4);
            Settle 0 (FetchResponded 200); Settle 0 (BodyRead sampleAnswer)].
    vm_compute. reflexivity. }
  split; [exact R|].
  exact (stats_is_the_last_of_allStats answeredWorld R).
Defined.

(** ** The request window *)

Lemma slice_last_length : forall (A : Type) n (l : list A),
  length (Js.slice_last n l) = Nat.min n (length l).
Proof.
  intros A n l. unfold Js.slice_last. rewrite length_skipn. lia.
Qed.

Lemma slice_last_nth : forall (A : Type) n (l : list A) i,
  nth_error (Js.slice_last n l) i = nth_error l (length l - n + i).
Proof.
  intros A n l i. unfold Js.slice_last. apply nth_error_skipn.
Qed.

Lemma slice_last_in : forall (A : Type) n (l : list A) x,
  In x (Js.slice_last n l) -> In x l.
Proof.
  intros A n l x H. unfold Js.slice_last in H.
  rewrite <- (firstn_skipn (length l - n) l). apply in_or_app. auto.
Qed.

Lemma wellFormedRequest_new : forall h ft,
  blank ft = false ->
  wellFormedRequest
    (Js.slice_last 10 h ++ [{| role := user; content := ft |}]) = true.
Proof.
  intros h ft Hb. unfold wellFormedRequest.
  rewrite rev_app_distr, length_app, slice_last_length.
  apply andb_true_intro. split.
  - apply Nat.leb_le. cbn [length]. lia.
  - cbn [rev app]. unfold is_user. cbn [role content]. rewrite Hb.
    reflexivity.
Qed.

(** X4. Every message list the loop posts has at most eleven messages (a
    window of at most ten stored turns and the new one) and ends with a
    user turn whose text is not blank: the captured text, or the
    placeholder sentence for a silent answer. *)
Theorem posted_requests_are_bounded : forall w,
  reachable w -> forallb wellFormedRequest (requests w) = true.
Proof.
  apply reachable_ind.
  - reflexivity.
  - intros e w w' IH H. destruct e as [| |i r].
    + unfold step in H. unfold_loop. split_paths H; injection H as <-;
        simpl; auto.
    + unfold step in H. unfold_loop. simpl in H. injection H as <-. simpl.
      assumption.
    + apply step_settle in H.
      destruct H as (s & m & next & w1 & Hs & Hm & Hrun & ->).
      destruct s, r; simpl in Hm; try discriminate;
        injection Hm as <-; unfold_loop; split_paths Hrun;
        injection Hrun as <- <-; simpl; rewrite ?IH; auto;
        rewrite andb_true_r; apply wellFormedRequest_new;
        solve [assumption | reflexivity].
Qed.

Lemma posted_requests_are_bounded_witness :
  reachable processingWorld /\
  forallb wellFormedRequest (requests processingWorld) = true /\
  length (requests processingWorld) = 1.
Proof.
  assert (R : reachable processingWorld).
  { exists [Start; Settle 0 SpeakEnded;
            Settle 0 (CaptureEnded "I led a migration" 4)].
    vm_compute. reflexivity. }
  split; [exact R|]. split; [|reflexivity].
  exact (posted_requests_are_bounded processingWorld R).
Defined.

(** ** The filler clip and the loops *)

Lemma existsb_park_in : forall (P : Suspension -> bool) l i s s',
  nth_error l i = Some s -> P s' = true ->
  existsb P (park i (Some s') l) = true.
Proof.
  intros P. induction l as [|a l IH]; intros [|i] s s' H Hp; simpl in *;
    try discriminate.
  - rewrite Hp. reflexivity.
  - rewrite (IH i s s' H Hp). apply orb_true_r.
Qed.

Lemma existsb_park_other : forall (P : Suspension -> bool) l i s next,
  existsb P l = true -> nth_error l i = Some s -> P s = false ->
  existsb P (park i next l) = true.
Proof.
  intros P. induction l as [|a l IH]; intros [|i] s next He H Hp;
    simpl in *; try discriminate.
  - injection H as ->. rewrite Hp in He. simpl in He.
    destruct next; simpl; rewrite He; auto using orb_true_r.
  - destruct (P a); simpl in *; [reflexivity|]. eapply IH; eassumption.
Qed.

(** X5. The filler clip is asked to play only while a request is
    pending: in every reachable world in which the clip has been started
    and not stopped, the run flag is set and some loop is parked between
    posting its request and reading the answer.  In a run in which
    start() is not called while a loop of an ended session is still
    parked, that loop is the only one and the phase is processing: the
    clip is stopped before the session listens or speaks again. *)
Theorem filler_only_while_requesting : forall w,
  reachable w ->
  fillerPlaying w = true ->
  isRunningRef w = true /\
  existsb inRequest (loops w) = true /\
  (forall es,
     runCalm es initialWorld = Some w ->
     phase (state w) = processing /\
     exists s, loops w = [s] /\ inRequest s = true).
Proof.
  intros w R Hf.
  assert (A : isRunningRef w = true /\ existsb inRequest (loops w) = true).
  { revert w R Hf.
    apply (reachable_ind
             (fun w => fillerPlaying w = true ->
                       isRunningRef w = true /\
                       existsb inRequest (loops w) = true)).
    - discriminate.
    - intros e w w' IH H. destruct e as [| |i r].
      + unfold step in H. unfold_loop. split_paths H; injection H as <-;
          simpl; intros Hf; destruct (IH Hf) as [F E];
          (split; [first [reflexivity | assumption]|]);
          rewrite ?existsb_app, E; reflexivity.
      + unfold step in H. unfold_loop. simpl in H. injection H as <-.
        simpl. discriminate.
      + apply step_settle in H.
        destruct H as (s & m & next & w1 & Hs & Hm & Hrun & ->).
        destruct s, r; simpl in Hm; try discriminate;
          injection Hm as <-; unfold_loop; split_paths Hrun;
          injection Hrun as <- <-; simpl; intros Hf;
          first [ discriminate Hf
                | split;
                  [ first [ reflexivity | assumption
                          | apply negb_false_iff; assumption
                          | exact (proj1 (IH Hf)) ]
                  | first [ eapply existsb_park_in;
                            [eassumption | reflexivity]
                          | eapply existsb_park_other;
                            [exact (proj2 (IH Hf)) | eassumption
                             | reflexivity] ] ] ]. }
  destruct A as [F E]. split; [exact F|]. split; [exact E|].
  intros es H.
  destruct (runCalm_phase es _ _ phaseInvariant_initial H) as [_ I].
  destruct (loops w) as [|s [|]]; try contradiction; [discriminate E|].
  rewrite F in I. simpl in E. rewrite orb_false_r in E.
  split; [|exists s; auto].
  rewrite I. destruct s; try discriminate E; reflexivity.
Qed.

Lemma filler_only_while_requesting_witness :
  reachable processingWorld /\
  fillerPlaying processingWorld = true /\
  existsb inRequest (loops processingWorld) = true /\
  phase (state processingWorld) = processing.
Proof.
  assert (C : runCalm [Start; Settle 0 SpeakEnded;
                       Settle 0 (CaptureEnded "I led a migration" 4)]
                initialWorld = Some processingWorld)
    by (vm_compute; reflexivity).
  assert (R : reachable processingWorld).
  { exists [Start; Settle 0 SpeakEnded;
            Settle 0 (CaptureEnded "I led a migration" 4)].
    vm_compute. reflexivity. }
  assert (F : fillerPlaying processingWorld = true) by reflexivity.
  split; [exact R|]. split; [exact F|].
  destruct (filler_only_while_requesting processingWorld R F)
    as (_ & E & K).
  split; [exact E|]. exact (proj1 (K _ C)).
Defined.

(** ** After end(), and while running *)

Lemma list_sum_park_none : forall l i s,
  nth_error l i = Some s ->
  list_sum (map awaitsLeft (park i None l)) + awaitsLeft s
  = list_sum (map awaitsLeft l).
Proof.
  induction l as [|a l IH]; intros [|i] s H; simpl in *; try discriminate.
  - injection H as ->. lia.
  - rewrite <- (IH i s H). lia.
Qed.

Lemma list_sum_park_some : forall l i s s',
  nth_error l i = Some s ->
  list_sum (map awaitsLeft (park i (Some s') l)) + awaitsLeft s
  = list_sum (map awaitsLeft l) + awaitsLeft s'.
Proof.
  induction l as [|a l IH]; intros [|i] s s' H; simpl in *; try discriminate.
  - injection H as ->. lia.
  - pose proof (IH i s s' H). lia.
Qed.

(** X6. Once the run flag is clear every settlement brings the loops
    nearer to their return: the flag stays clear and the number of awaits
    the parked loops have left (two for a loop reading the answer, one
    otherwise) strictly decreases, so after end() each loop returns after
    at most two settlements. *)
Theorem loops_drain_after_end : forall w i r w',
  isRunningRef w = false ->
  step (Settle i r) w = Some w' ->
  isRunningRef w' = false /\ allAwaitsLeft w' < allAwaitsLeft w.
Proof.
  intros w i r w' Hflag H. unfold allAwaitsLeft.
  apply step_settle in H.
  destruct H as (s & m & next & w1 & Hs & Hm & Hrun & ->).
  destruct s, r; simpl in Hm; try discriminate;
    injection Hm as <-; unfold_loop; simpl in Hrun;
    rewrite ?Hflag in Hrun; split_paths Hrun;
    injection Hrun as <- <-; simpl;
    (split; [reflexivity || assumption|]);
    first [ pose proof (list_sum_park_none _ _ _ Hs) as E; simpl in E; lia
          | pose proof (list_sum_park_some _ _ _ AwaitReply Hs) as E;
            simpl in E; lia ].
Qed.

Lemma loops_drain_after_end_witness :
  exists w w',
    isRunningRef w = false /\
    step (Settle 0 (BodyRead sampleAnswer)) w = Some w' /\
    allAwaitsLeft w = 2 /\ allAwaitsLeft w' = 1.
Proof.
  pose (w := match run endedWhileReading initialWorld with
             | Some w => w
             | None => initialWorld
             end).
  pose (w' := match step (Settle 0 (BodyRead sampleAnswer)) w with
              | Some w' => w'
              | None => initialWorld
              end).
  assert (F : isRunningRef w = false) by reflexivity.
  assert (H : step (Settle 0 (BodyRead sampleAnswer)) w = Some w')
    by (vm_compute; reflexivity).
  pose proof (loops_drain_after_end w 0 _ w' F H) as [_ D].
  exists w, w'. repeat apply conj; try assumption; vm_compute; reflexivity.
Defined.

(** X7. While the run flag is set no loop returns, and a failure is
    retried at once: after a failed capture, request, answer or reply the
    loop has dispatched SET_ERROR and is parked at the capture of the next
    round, with the phase at listening, the transcript and the error
    cleared and the history untouched. *)
Theorem failures_are_retried_while_running : forall w i s r w',
  isRunningRef w = true ->
  nth_error (loops w) i = Some s ->
  step (Settle i r) w = Some w' ->
  isRunningRef w' = true /\
  length (loops w') = length (loops w) /\
  (failure s r = true ->
   nth_error (loops w') i = Some AwaitCapture /\
   (exists msg, In (state w, SET_ERROR msg) (dispatched w')) /\
   phase (state w') = listening /\
   transcript (state w') = "" /\
   error (state w') = None /\
   history (state w') = history (state w)).
Proof.
  intros w i s r w' Hflag Hs H.
  assert (Hlen : forall s', length (park i (Some s') (loops w))
                            = length (loops w)).
  { intros s'. clear - Hs. revert i Hs.
    induction (loops w) as [|a l IH]; intros [|i] Hs; simpl in *;
      try discriminate; auto. }
  apply step_settle in H.
  destruct H as (s0 & m & next & w1 & Hs0 & Hm & Hrun & ->).
  rewrite Hs in Hs0. injection Hs0 as <-.
  destruct s, r; simpl in Hm; try discriminate;
    injection Hm as <-; unfold_loop; simpl in Hrun;
    rewrite ?Hflag in Hrun; split_paths Hrun;
    injection Hrun as <- <-; simpl;
    (split; [reflexivity || assumption|]); (split; [apply Hlen|]);
    intros Hf; try discriminate Hf;
    (split; [eapply nth_error_park; eassumption|]);
    (split; [eexists; simpl; eauto|]); repeat split; reflexivity.
Qed.

Lemma failures_are_retried_while_running_witness :
  exists w',
    isRunningRef processingWorld = true /\
    nth_error (loops processingWorld) 0
      = Some (AwaitFetch "I led a migration" 4) /\
    step (Settle 0 (FetchFailed (ErrorObject "Failed to fetch")))
      processingWorld = Some w' /\
    nth_error (loops w') 0 = Some AwaitCapture.
Proof.
  pose (w' := match step (Settle 0 (FetchFailed (ErrorObject "Failed to fetch")))
                      processingWorld with
              | Some w' => w'
              | None => initialWorld
              end).
  assert (F : isRunningRef processingWorld = true) by reflexivity.
  assert (S : nth_error (loops processingWorld) 0
              = Some (AwaitFetch "I led a migration" 4)) by reflexivity.
  assert (H : step (Settle 0 (FetchFailed (ErrorObject "Failed to fetch")))
                processingWorld = Some w') by (vm_compute; reflexivity).
  pose proof (failures_are_retried_while_running _ _ _ _ w' F S H)
    as (_ & _ & K).
  exists w'. repeat apply conj; try assumption.
  exact (proj1 (K eq_refl)).
Defined.

(* ================================================================== *)
(** * Further properties of the route handlers *)

Section MoreRoutes.
Import Json.

Lemma validate_returns_400 : forall items r,
  Route.validate items = Return r -> status r = 400%Z.
Proof.
  induction items as [|msg rest IH]; simpl; intros r; [discriminate|].
  unfold read. destruct (prop msg "role") as [e|role]; simpl;
    [discriminate|].
  destruct (negb (truthy role)); [intros [= <-]; reflexivity|].
  destruct (prop msg "content") as [e|content]; simpl; [discriminate|].
  destruct (negb (truthy content) || negb (isString content));
    [intros [= <-]; reflexivity | apply IH].
Qed.

(** X9. [app/api/chat/route.ts] never answers with a server error: the
    status is 400 or 200, and which of the two depends on the request
    alone, not on what the upstream call does. *)
Theorem route_answers_200_or_400 : forall request,
  (forall upstream, status (Route.POST request upstream) = 400%Z) \/
  (forall upstream, status (Route.POST request upstream) = 200%Z).
Proof.
  intros [|body].
  - right. intros upstream. reflexivity.
  - cbv beta iota delta [Route.POST Route.tryPOST read andThen].
    destruct (prop body "messages") as [e|messages].
    + right. intros upstream. reflexivity.
    + destruct (negb (truthy messages) || negb (isArray messages)).
      * left. intros upstream. reflexivity.
      * destruct (Route.validate _) as [r|e|[]] eqn:V.
        -- left. intros upstream. eapply validate_returns_400. eassumption.
        -- right. intros upstream. reflexivity.
        -- right. intros [err| | |parsed]; try reflexivity.
           destruct (prop parsed "reply") as [e|reply]; [reflexivity|].
           destruct (negb (isString reply)); [reflexivity|].
           destruct (prop parsed "analysis") as [e|analysis];
             [reflexivity|].
           destruct (negb (truthy analysis)); reflexivity.
Qed.

Lemma Route_POST_cases : forall request upstream,
  status (Route.POST request upstream) = 400%Z \/
  Route.POST request upstream = json (ofResponse Route.FALLBACK_RESPONSE) \/
  (exists parsed,
     upstream = Payload parsed /\ usable parsed = true /\
     Route.POST request upstream = json parsed).
Proof.
  intros [|body] upstream; [right; left; reflexivity|].
  cbv beta iota delta [Route.POST Route.tryPOST read andThen].
  destruct (prop body "messages") as [e|messages]; [right; left; reflexivity|].
  destruct (negb (truthy messages) || negb (isArray messages));
    [left; reflexivity|].
  destruct (Route.validate _) as [r|e|[]] eqn:V.
  - left. eapply validate_returns_400. eassumption.
  - right. left. reflexivity.
  - destruct upstream as [err| | |parsed]; try (right; left; reflexivity).
    destruct (prop parsed "reply") as [e|reply] eqn:Er;
      [right; left; reflexivity|].
    destruct (isString reply) eqn:Si; simpl; [|right; left; reflexivity].
    destruct (prop parsed "analysis") as [e|analysis] eqn:Ea;
      [right; left; reflexivity|].
    destruct (truthy analysis) eqn:T; simpl; [|right; left; reflexivity].
    right. right. exists parsed. split; [reflexivity|]. split; [|reflexivity].
    unfold usable. rewrite Er, Ea, Si, T. reflexivity.
Qed.

(** X10. Every answer of [app/api/chat/route.ts] with status 200 carries
    a string reply and a truthy analysis, whatever the request and the
    upstream call were: it is the fallback or a payload that passed the
    check. *)
Theorem route_success_has_reply_and_analysis : forall request upstream,
  status (Route.POST request upstream) = 200%Z ->
  usable (body (Route.POST request upstream)) = true.
Proof.
  intros request upstream E.
  destruct (Route_POST_cases request upstream)
    as [H|[H|(parsed & _ & Hu & H)]].
  - rewrite H in E. discriminate.
  - rewrite H. reflexivity.
  - rewrite H. exact Hu.
Qed.

Lemma route_success_has_reply_and_analysis_witness :
  status (Route.POST sampleRequest (Payload replyOnlyPayload)) = 200%Z /\
  usable (body (Route.POST sampleRequest (Payload replyOnlyPayload))) = true.
Proof.
  assert (E : status (Route.POST sampleRequest (Payload replyOnlyPayload))
              = 200%Z) by reflexivity.
  split; [exact E|].
  exact (route_success_has_reply_and_analysis _ _ E).
Defined.

(** The sanitizing variant: what an answer with status 200 is. *)
Lemma SanitizingRoute_POST_cases : forall request upstream,
  (status (SanitizingRoute.POST request upstream) = 400%Z \/
   status (SanitizingRoute.POST request upstream) = 500%Z \/
   status (SanitizingRoute.POST request upstream) = 502%Z) \/
  (exists r a m,
     sanitized a m /\
     SanitizingRoute.POST request upstream
       = json (ofResponse {| reply := r; analysis := m |})).
Proof.
  intros [|body] upstream; [left; auto|].
  cbv beta iota delta [SanitizingRoute.POST SanitizingRoute.tryPOST read
                         andThen].
  destruct (prop body "messages") as [e|messages];
    [destruct e; left; auto|].
  destruct (negb (truthy messages) || negb (isArray messages));
    [left; auto|].
  destruct upstream as [err| | |parsed]; try (left; auto; fail).
  destruct (prop parsed "reply") as [e|reply]; [destruct e; left; auto|].
  destruct reply as [[| | |r| |]|]; try (left; auto; fail).
  destruct (prop parsed "analysis") as [e|analysis];
    [destruct e; left; auto|].
  destruct analysis as [a|]; [|left; auto].
  destruct (truthy (Some a)) eqn:T; simpl; [|left; auto].
  assert (Hn : a <> Null) by (intros ->; discriminate T).
  destruct (sanitizeAnalysis_total a Hn) as (m & Es & Hs).
  right. exists r, a, m. rewrite Es. auto.
Qed.

(** X11. Every answer of the sanitizing variant with status 200 is a
    well-typed response: a string reply and metrics whose confidence and
    clarity are within 0..100 and whose pacing is 0; the client's read of
    it at the declared type succeeds.  Every other answer has status 400,
    500 or 502. *)
Theorem sanitizing_route_success_is_in_contract : forall request upstream,
  (status (SanitizingRoute.POST request upstream) = 200%Z ->
   exists data,
     body (SanitizingRoute.POST request upstream) = ofResponse data /\
     toResponse (body (SanitizingRoute.POST request upstream)) = Some data /\
     (0 <= confidence_score (analysis data))%Q /\
     (confidence_score (analysis data) <= 100)%Q /\
     (0 <= clarity_score (analysis data))%Q /\
     (clarity_score (analysis data) <= 100)%Q /\
     pacing_wpm (analysis data) = 0%number) /\
  (status (SanitizingRoute.POST request upstream) = 200%Z \/
   status (SanitizingRoute.POST request upstream) = 400%Z \/
   status (SanitizingRoute.POST request upstream) = 500%Z \/
   status (SanitizingRoute.POST request upstream) = 502%Z).
Proof.
  intros request upstream.
  destruct (SanitizingRoute_POST_cases request upstream)
    as [[H|[H|H]]|(r & a & m & Hs & H)]; rewrite H.
  - split; [discriminate | auto].
  - split; [discriminate | auto].
  - split; [discriminate | auto].
  - split; [|left; reflexivity]. intros _.
    exists {| reply := r; analysis := m |}. cbn [body json analysis].
    destruct (sanitized_range _ _ Hs) as (C1 & C2 & L1 & L2 & P).
    rewrite (toResponse_ofResponse {| reply := r; analysis := m |} P).
    repeat split; assumption.
Qed.

Lemma sanitizing_route_success_is_in_contract_witness :
  status (SanitizingRoute.POST sampleRequest (Payload outOfRangePayload))
    = 200%Z /\
  exists data,
    body (SanitizingRoute.POST sampleRequest (Payload outOfRangePayload))
      = ofResponse data /\
    (confidence_score (analysis data) <= 100)%Q.
Proof.
  assert (E : status (SanitizingRoute.POST sampleRequest
                        (Payload outOfRangePayload)) = 200%Z)
    by reflexivity.
  split; [exact E|].
  destruct (proj1 (sanitizing_route_success_is_in_contract
                     sampleRequest (Payload outOfRangePayload)) E)
    as (data & B & _ & _ & C & _).
  exists data. split; assumption.
Defined.

(** ** The request body and the message check *)

Lemma validate_ofMessages : forall messages,
  Route.validate (map ofMessage messages) =
    if forallb (fun m => negb (String.eqb (content m) "")) messages
    then Next tt
    else Return (jsonStatus
                   (ofError "Invalid message format: role and content required")
                   400).
Proof.
  induction messages as [|[r c] rest IH]; [reflexivity|].
  destruct r; simpl; destruct (String.eqb c ""); simpl;
    solve [reflexivity | exact IH].
Qed.

Lemma empty_message_is_rejected : forall messages m upstream,
  In m messages -> content m = "" ->
  status (Route.POST (ofRequest messages) upstream) = 400%Z.
Proof.
  intros messages m upstream Hin Hm.
  assert (F : forallb (fun m => negb (String.eqb (content m) "")) messages
              = false).
  { destruct (forallb _ messages) eqn:E; [|reflexivity].
    rewrite forallb_forall in E. specialize (E m Hin).
    rewrite Hm in E. discriminate. }
  unfold ofRequest.
  cbv beta iota delta [Route.POST Route.tryPOST read andThen].
  simpl. rewrite validate_ofMessages, F. reflexivity.
Qed.

(** X12. [app/api/chat/route.ts] accepts the message list the loop posts
    exactly when no message in it has an empty text; a list with an
    empty message is answered with status 400 whatever the upstream call
    would do. *)
Theorem posted_messages_need_text : forall messages,
  accepted (ofRequest messages)
    = forallb (fun m => negb (String.eqb (content m) "")) messages /\
  ((exists m, In m messages /\ content m = "") ->
   forall upstream,
     status (Route.POST (ofRequest messages) upstream) = 400%Z).
Proof.
  intros messages. split.
  - unfold accepted, ofRequest. simpl. rewrite validate_ofMessages.
    destruct (forallb _ messages); reflexivity.
  - intros (m & Hin & Hm) upstream.
    eapply empty_message_is_rejected; eassumption.
Qed.

Lemma posted_messages_need_text_witness :
  (exists m,
     In m [{| role := assistant; content := OPENING_QUESTION |};
           {| role := user; content := "" |}] /\ content m = "") /\
  status (Route.POST
            (ofRequest [{| role := assistant; content := OPENING_QUESTION |};
                        {| role := user; content := "" |}])
            (Payload wrongTypePayload)) = 400%Z.
Proof.
  assert (H : exists m,
            In m [{| role := assistant; content := OPENING_QUESTION |};
                  {| role := user; content := "" |}] /\ content m = "").
  { exists {| role := user; content := "" |}. split; [|reflexivity].
    right. left. reflexivity. }
  split; [exact H|].
  exact (proj2 (posted_messages_need_text _) H _).
Defined.

End MoreRoutes.

(** X13. A silent answer blocks the rounds that follow it: when the
    window of the last ten stored turns holds a turn with empty text (as
    the user turn of a silent answer is stored), the message list the loop
    posts for the next answer is rejected by [app/api/chat/route.ts] with
    status 400, whatever was said. *)
Theorem silent_turn_blocks_later_requests : forall w i t d m,
  nth_error (loops w) i = Some AwaitCapture ->
  isRunningRef w = true ->
  In m (Js.slice_last 10 (history (state w))) ->
  content m = "" ->
  exists w1 posted,
    step (Settle i (CaptureEnded t d)) w = Some w1 /\
    requests w1 = posted :: requests w /\
    forall upstream,
      Json.status (Route.POST (ofRequest posted) upstream) = 400%Z.
Proof.
  intros w i t d m Hs Hrun Hin Hm.
  destruct (capture_segment w i t d Hs Hrun)
    as (w1 & E & _ & _ & _ & R & _).
  exists w1. eexists. split; [exact E|]. split; [exact R|].
  intros upstream. eapply empty_message_is_rejected; [|exact Hm].
  apply in_or_app. left. assumption.
Qed.

Lemma silent_turn_blocks_later_requests_witness :
  nth_error (loops afterSilenceWorld) 0 = Some AwaitCapture /\
  isRunningRef afterSilenceWorld = true /\
  In {| role := user; content := "" |}
    (Js.slice_last 10 (history (state afterSilenceWorld))) /\
  exists w1 posted,
    step (Settle 0 (CaptureEnded "I led a migration" 4)) afterSilenceWorld
      = Some w1 /\
    requests w1 = posted :: requests afterSilenceWorld /\
    Json.status (Route.POST (ofRequest posted) Json.NoContent) = 400%Z.
Proof.
  assert (H1 : nth_error (loops afterSilenceWorld) 0 = Some AwaitCapture)
    by reflexivity.
  assert (H2 : isRunningRef afterSilenceWorld = true) by reflexivity.
  assert (H3 : In {| role := user; content := "" |}
                 (Js.slice_last 10 (history (state afterSilenceWorld))))
    by (vm_compute; auto).
  split; [exact H1|]. split; [exact H2|]. split; [exact H3|].
  destruct (silent_turn_blocks_later_requests afterSilenceWorld 0
              "I led a migration" 4%number _ H1 H2 H3 eq_refl)
    as (w1 & posted & E & R & K).
  exists w1, posted. split; [exact E|]. split; [exact R|]. apply K.
Defined.

(* ================================================================== *)
(** * Further properties of calculateWPM *)

Lemma split_spaces_nonempty : forall s cur in_sep,
  1 <= length (Js.split_spaces_from cur in_sep s).
Proof.
  induction s as [|c s IH]; intros cur in_sep; simpl; [lia|].
  destruct (Js.is_space c); [destruct in_sep; simpl|]; auto; lia.
Qed.

(** A text is blank exactly when it has no word. *)
Lemma blank_iff_no_words : forall t, blank t = true <-> words t = 0.
Proof.
  intros t. split; [apply blank_words|].
  intros H. destruct (blank t) eqn:Hb; [reflexivity|].
  rewrite <- (wordCount_words t Hb) in H. unfold wordCount in H.
  pose proof (split_spaces_nonempty
                (Js.trim (list_ascii_of_string t)) [] false) as L.
  unfold Js.split_spaces in H. lia.
Qed.

Lemma round_nonnegative : forall x : Q, (0 <= x)%Q -> (0 <= Js.round x)%Z.
Proof.
  intros x Hx. unfold Js.round.
  change 0%Z with (Qfloor 0). apply Qfloor_resp_le.
  apply Qle_trans with x; [assumption|].
  rewrite <- (Qplus_0_r x) at 1. apply Qplus_le_r. discriminate.
Qed.

(** *** The sign of a float result *)

Section Signs.
Import SpecFloat.

Lemma shr_1_nonneg : forall mrs,
  (0 <= shr_m mrs)%Z -> (0 <= shr_m (shr_1 mrs))%Z.
Proof.
  intros [m r s] H. simpl in *.
  destruct m as [|[p|p|]|p]; simpl; lia.
Qed.

Lemma iter_shr_1_nonneg : forall p mrs,
  (0 <= shr_m mrs)%Z -> (0 <= shr_m (iter_pos shr_1 p mrs))%Z.
Proof.
  induction p as [p IH|p IH|]; intros mrs H; simpl.
  - apply IH, IH, shr_1_nonneg, H.
  - apply IH, IH, H.
  - apply shr_1_nonneg, H.
Qed.

Lemma shr_fexp_nonneg : forall m e l,
  (0 <= m)%Z -> (0 <= shr_m (fst (shr_fexp 53 1024 m e l)))%Z.
Proof.
  intros m e l H. unfold shr_fexp, shr.
  assert (R : (0 <= shr_m (shr_record_of_loc m l))%Z)
    by (destruct l as [|[| |]]; exact H).
  destruct (fexp 53 1024 (Zdigits2 m + e) - e)%Z; simpl; try exact R.
  apply iter_shr_1_nonneg, R.
Qed.

Lemma round_nearest_even_nonneg : forall m l,
  (0 <= m)%Z -> (0 <= round_nearest_even m l)%Z.
Proof.
  intros m l H. unfold round_nearest_even.
  destruct l as [|[| |]]; try lia. destruct (Z.even m); lia.
Qed.

(** Rounding a mantissa that is not negative gives the sign asked
    for. *)
Lemma binary_round_aux_sign : forall m e l,
  (0 <= m)%Z -> positiveOrZero (binary_round_aux 53 1024 false m e l).
Proof.
  intros m e l H. unfold binary_round_aux.
  pose proof (shr_fexp_nonneg m e l H) as H1.
  destruct (shr_fexp 53 1024 m e l) as [mrs' e'] eqn:E1. simpl in H1.
  pose proof (shr_fexp_nonneg _ e' loc_Exact
                (round_nearest_even_nonneg _ (loc_of_shr_record mrs') H1))
    as H2.
  destruct (shr_fexp 53 1024
              (round_nearest_even (shr_m mrs') (loc_of_shr_record mrs'))
              e' loc_Exact) as [mrs'' e''] eqn:E2.
  simpl in H2.
  destruct (shr_m mrs'') as [|p|p]; [reflexivity| |lia].
  destruct (Z.leb e'' (Z.sub 1024 53)); reflexivity.
Qed.

Lemma ofZ_positiveOrZero : forall z,
  (0 <= z)%Z -> positiveOrZero (Js.ofZ z).
Proof.
  intros [|p|p] H; try reflexivity; [|lia].
  unfold Js.ofZ, binary_normalize, binary_round.
  destruct (shl_align p 0 (fexp 53 1024 (Z.pos (digits2_pos p) + 0)))
    as [mz ez].
  apply binary_round_aux_sign. lia.
Qed.

Lemma div_positiveOrZero : forall x d,
  positiveOrZero x ->
  (exists m e, d = S754_finite false m e) ->
  positiveOrZero (Js.div x d).
Proof.
  intros x d Hx (m & e & ->).
  destruct x as [s|s| |s mx ex]; simpl in Hx; try contradiction; subst s;
    try reflexivity.
  unfold Js.div, SFdiv. cbn [xorb].
  destruct (SFdiv_core_binary 53 1024 (Z.pos mx) ex (Z.pos m) e)
    as [[mz ez] lz] eqn:E.
  apply binary_round_aux_sign.
  unfold SFdiv_core_binary in E.
  match type of E with
  | (let '(q, r) := Z.div_eucl ?a ?b in _) = _ =>
      assert (A : (0 <= a)%Z);
      [|pose proof (Z_div_pos a b ltac:(lia) A) as Q;
        unfold Z.div in Q; destruct (Z.div_eucl a b) as [q r];
        injection E as <- _ _; exact Q]
  end.
  destruct (ex - e - _)%Z; try lia. apply Z.shiftl_nonneg. lia.
Qed.

Lemma mul_positiveOrZero : forall x y,
  positiveOrZero x ->
  (exists m e, y = S754_finite false m e) ->
  positiveOrZero (Js.mul x y).
Proof.
  intros x y Hx (m & e & ->).
  destruct x as [s|s| |s mx ex]; simpl in Hx; try contradiction; subst s;
    try reflexivity.
  unfold Js.mul, SFmul. cbn [xorb]. apply binary_round_aux_sign. lia.
Qed.

Lemma toQ_positive : forall m e, (0 < Js.toQ (S754_finite false m e))%Q.
Proof.
  intros m e. unfold Js.toQ.
  apply Qmult_lt_0_compat; [|apply Qpower_0_lt; reflexivity].
  apply Qmult_lt_0_compat; reflexivity.
Qed.

Lemma Math_round_positiveOrZero : forall x,
  positiveOrZero x -> positiveOrZero (Js.Math_round x).
Proof.
  intros [s|s| |s m e] H; simpl in H; try contradiction; subst;
    try reflexivity.
  unfold Js.Math_round. destruct (0 <=? e)%Z; [reflexivity|].
  destruct (Js.round (Js.toQ (S754_finite false m e)) =? 0)%Z;
    [reflexivity|].
  apply ofZ_positiveOrZero, round_nonnegative, Qlt_le_weak, toQ_positive.
Qed.

End Signs.

(** X14. calculateWPM never returns a negative number for a duration
    that is a number: it is 0 whenever the transcript is blank or the
    duration is zero or negative, and for a positive finite duration it
    is plus zero, a positive float or (when the quotient is too large
    for a float) plus infinity, never [NaN].  A duration that is [NaN]
    passes the guard, and the result is then [NaN]. *)
Theorem calculateWPM_is_never_negative : forall t d,
  (blank t = true \/ Js.leb d 0 = true -> calculateWPM t d = 0%number) /\
  (forall m e, d = S754_finite false m e ->
     positiveOrZero (calculateWPM t d)) /\
  (blank t = false -> Js.isNaN d = true -> calculateWPM t d = S754_nan).
Proof.
  intros t d. repeat apply conj.
  - intros [Hb|Hd]; unfold calculateWPM.
    + rewrite Hb. reflexivity.
    + rewrite Hd, orb_true_r. reflexivity.
  - intros m e ->. unfold calculateWPM.
    destruct (blank t); [reflexivity|]. cbn [orb Js.leb SFleb SFcompare].
    apply Math_round_positiveOrZero, mul_positiveOrZero;
      [|do 2 eexists; reflexivity].
    apply div_positiveOrZero; [apply ofZ_positiveOrZero; lia|].
    exists m, e. reflexivity.
  - intros Hb Hd. destruct d; try discriminate Hd.
    unfold calculateWPM. rewrite Hb. cbn [orb Js.leb SFleb SFcompare].
    destruct (Js.ofZ (Z.of_nat (wordCount t))); reflexivity.
Qed.

Lemma calculateWPM_is_never_negative_witness :
  (blank "   " = true \/ Js.leb 5 0 = true) /\
  calculateWPM "   " 5 = 0%number /\
  positiveOrZero (calculateWPM "one two" 3).
Proof.
  assert (H : blank "   " = true \/ Js.leb 5 0 = true)
    by (left; reflexivity).
  split; [exact H|]. split.
  - exact (proj1 (calculateWPM_is_never_negative "   " 5) H).
  - exact (proj1 (proj2 (calculateWPM_is_never_negative "one two" 3))
             _ _ eq_refl).
Defined.

(** X15. calculateWPM depends on the transcript only through its number
    of words: leading, trailing and repeated white space do not change
    the result. *)
Theorem calculateWPM_ignores_spacing : forall t t' d,
  words t = words t' -> calculateWPM t d = calculateWPM t' d.
Proof.
  intros t t' d H. unfold calculateWPM.
  destruct (blank t) eqn:Hb.
  - assert (Hb' : blank t' = true).
    { apply blank_iff_no_words. rewrite <- H. apply blank_iff_no_words.
      assumption. }
    rewrite Hb'. reflexivity.
  - assert (Hb' : blank t' = false).
    { destruct (blank t') eqn:E; [|reflexivity].
      apply blank_iff_no_words in E. rewrite <- H in E.
      apply blank_iff_no_words in E. congruence. }
    rewrite Hb'. simpl.
    rewrite (wordCount_words t Hb), (wordCount_words t' Hb'), H.
    reflexivity.
Qed.

Lemma calculateWPM_ignores_spacing_witness :
  words "one two" = words "  one   two " /\
  calculateWPM "one two" 3 = calculateWPM "  one   two " 3.
Proof.
  assert (H : words "one two" = words "  one   two ") by reflexivity.
  split; [exact H|].
  exact (calculateWPM_ignores_spacing "one two" "  one   two " 3 H).
Defined.

(* ================================================================== *)
(** * Further properties of the capture *)

Section MoreCapture.
Import Recognition.

Lemma pending_from : forall es hook hook' acc,
  (forall i call,
     nth_error (calls hook) i = Some call ->
     (answer call = Pending <-> acc i = false)) ->
  (forall i, length (calls hook) <= i -> acc i = false) ->
  run true es hook = Some hook' ->
  forall i call,
    nth_error (calls hook') i = Some call ->
    (answer call = Pending <-> acc i || stopped i es = false).
Proof.
  induction es as [|e es IH]; intros hook hook' acc Hp Hnew H i call Hn;
    simpl in H.
  - injection H as <-. simpl. rewrite orb_false_r. apply Hp. assumption.
  - destruct (step true hook e) as [hook1|] eqn:E; [|discriminate].
    unfold stopped. cbn [existsb]. rewrite orb_assoc.
    apply (IH hook1 hook'
             (fun k =>
                acc k
                || match e with
                   | Fire j (onend _) | Fire j (onerror _ _) => Nat.eqb k j
                   | _ => false
                   end)); try assumption.
    + intros k call1 Hk.
      pose proof (step_call _ _ _ _ _ _ E Hk) as S.
      destruct e as [|j h].
      * rewrite orb_false_r.
        destruct S as [S|[-> ->]]; [apply Hp; assumption|].
        rewrite (Hnew (length (calls hook))) by lia. simpl. tauto.
      * destruct S as (_ & _ & S).
        destruct (Nat.eqb k j) eqn:Ekj.
        -- destruct S as (call0 & H0 & ->).
           pose proof (Hp k call0 H0) as P.
           destruct h; simpl.
           ++ rewrite orb_false_r. exact P.
           ++ destruct (collect results). simpl. rewrite orb_false_r.
              exact P.
           ++ rewrite orb_true_r. split; [|discriminate].
              destruct (answer call0); discriminate.
           ++ rewrite orb_true_r. split; [|discriminate].
              destruct (answer call0); simpl; try discriminate.
              destruct (String.eqb _ "no-speech"); discriminate.
        -- destruct h; rewrite orb_false_r; apply Hp; assumption.
    + intros k Hk. pose proof (step_length _ _ _ _ E) as L.
      rewrite (Hnew k) by lia.
      destruct e as [|j h]; [reflexivity|].
      simpl in E. destruct (nth_error (calls hook) j) eqn:Ej; [|discriminate].
      assert (j < length (calls hook)) by (apply nth_error_Some; congruence).
      injection E as <-. simpl in Hk. rewrite length_setAt in Hk.
      assert (Nat.eqb k j = false) by (apply Nat.eqb_neq; lia).
      destruct h; simpl; auto.
Qed.

(** X16. The promise of a call of startListening is pending exactly
    until the recognizer of that call reports its end or an error: its
    start and result events, and the events of the recognizers of other
    calls, leave it pending, and every end event and every error event
    of its own recognizer settles it, so that the loop awaiting it goes
    on whenever recognition stops. *)
Theorem capture_is_pending_until_the_recognizer_stops :
  forall es hook i call,
  run true es initialHook = Some hook ->
  nth_error (calls hook) i = Some call ->
  (answer call = Pending <-> stopped i es = false).
Proof.
  intros es hook i call H Hn.
  apply (pending_from es initialHook hook (fun _ => false)); auto.
  intros k c Hk. destruct k; discriminate.
Qed.

Lemma capture_is_pending_until_the_recognizer_stops_witness :
  run true heard initialHook = Some heardHook /\
  nth_error (calls heardHook) 1
    = Some {| said := "Tell me "; answer := Pending |} /\
  stopped 1 heard = false /\
  stopped 0 heard = true.
Proof.
  assert (H : run true heard initialHook = Some heardHook)
    by (vm_compute; reflexivity).
  assert (Hn : nth_error (calls heardHook) 1
               = Some {| said := "Tell me "; answer := Pending |})
    by (vm_compute; reflexivity).
  split; [exact H|]. split; [exact Hn|].
  split; [|reflexivity].
  exact (proj1 (capture_is_pending_until_the_recognizer_stops
                  heard heardHook 1 _ H Hn) eq_refl).
Defined.

Lemma countWords_words : forall s, countWords s = words s.
Proof.
  intros s. unfold countWords.
  destruct (blank s) eqn:Hb.
  - rewrite (blank_words s Hb). unfold blank in Hb.
    destruct (Js.truthy (Js.trim (list_ascii_of_string s)));
      [discriminate | reflexivity].
  - rewrite <- (wordCount_words s Hb). unfold blank in Hb.
    destruct (Js.truthy (Js.trim (list_ascii_of_string s)));
      [reflexivity | discriminate].
Qed.

(** X17. After every result event the live transcript shows the
    finalized and the provisional text of that event, and its word count
    is the number of words of the two texts put together. *)
Theorem live_transcript_counts_words : forall c results,
  final (liveTranscript (handle c (onresult results))) = finalized results /\
  interim (liveTranscript (handle c (onresult results)))
    = provisional results /\
  wordCount (liveTranscript (handle c (onresult results)))
    = words (finalized results ++ provisional results)%string.
Proof.
  intros c results. simpl. rewrite collect_spec. simpl.
  rewrite countWords_words. repeat split; reflexivity.
Qed.

End MoreCapture.

(* ================================================================== *)
(** * Properties of the presentation *)

Section MorePresentation.
Import Presentation.

(** X18. While a session runs its phase is given by the place where
    the loop waits: in every run in which start() is not called while a
    loop of an ended session is still parked, a set run flag means that
    exactly one loop is parked and that the phase is speaking while it
    awaits the opening line or a reply, listening while it awaits the
    capture and processing while it awaits the endpoint; in particular
    the phase is not idle. *)
Theorem running_phase_is_given_by_the_await : forall es w,
  runCalm es initialWorld = Some w ->
  isRunningRef w = true ->
  exists s,
    loops w = [s] /\ phase (state w) = phaseAt s /\ phase (state w) <> idle.
Proof.
  intros es w H Hflag.
  destruct (runCalm_phase es _ _ phaseInvariant_initial H) as [_ Hinv].
  destruct (loops w) as [|s [|]]; try contradiction.
  - destruct Hinv as [F _]. congruence.
  - rewrite Hflag in Hinv. exists s. rewrite Hinv.
    repeat split; destruct s; discriminate.
Qed.

Lemma running_phase_is_given_by_the_await_witness :
  runCalm [Start; Settle 0 SpeakEnded] initialWorld = Some listeningWorld /\
  isRunningRef listeningWorld = true /\
  exists s,
    loops listeningWorld = [s] /\ phase (state listeningWorld) = phaseAt s.
Proof.
  assert (H : runCalm [Start; Settle 0 SpeakEnded] initialWorld
              = Some listeningWorld) by (vm_compute; reflexivity).
  assert (F : isRunningRef listeningWorld = true) by reflexivity.
  split; [exact H|]. split; [exact F|].
  destruct (running_phase_is_given_by_the_await _ _ H F) as (s & L & P & _).
  exists s. split; assumption.
Defined.





Lemma mapi_from_length : forall (A B : Type) (f : A -> nat -> B) l k,
  length (mapi_from f k l) = length l.
Proof.
  intros A B f. induction l as [|a l IH]; intros k; simpl; auto.
Qed.

Lemma mapi_from_nth : forall (A B : Type) (f : A -> nat -> B) l k i,
  nth_error (mapi_from f k l) i
  = option_map (fun a => f a (k + i)) (nth_error l i).
Proof.
  intros A B f. induction l as [|a l IH]; intros k [|i]; simpl;
    try reflexivity.
  - rewrite Nat.add_0_r. reflexivity.
  - rewrite IH. replace (S k + i) with (k + S i) by lia. reflexivity.
Qed.

(** X20. The progress chart of the dashboard is rendered only from the
    second round on; it then shows the last five rounds, or all of them
    when there are fewer, each under its own number: the bar labelled
    Q<n> carries the confidence and clarity of the n-th entry of
    allStats, and the labels are consecutive and end at the number of
    rounds. *)
Theorem bars_are_the_last_rounds : forall allStats',
  (progressChart allStats' = None <-> length allStats' <= 1) /\
  forall bars,
    progressChart allStats' = Some bars ->
    2 <= length bars /\
    length bars = Nat.min 5 (length allStats') /\
    forall i b,
      nth_error bars i = Some b ->
      round b = length allStats' - length bars + i + 1 /\
      round b <= length allStats' /\
      exists s,
        nth_error allStats' (round b - 1) = Some s /\
        confidence b = confidence_score s /\
        clarity b = clarity_score s.
Proof.
  intros l. unfold progressChart.
  assert (Hbar : length (barData l) = Nat.min 5 (length l)).
  { unfold barData. rewrite mapi_from_length. apply slice_last_length. }
  split.
  - destruct (Nat.ltb_spec 1 (length (barData l))) as [L|L];
      split; intros H; try discriminate H; try reflexivity; lia.
  - intros bars H.
    destruct (Nat.ltb_spec 1 (length (barData l))) as [L|L];
      [|discriminate H].
    injection H as <-. split; [lia|]. split; [exact Hbar|].
    clear L. revert Hbar. unfold barData.
    pose proof (slice_last_length _ 5 l) as Hlen.
    pose proof (slice_last_nth _ 5 l) as Hnth.
    remember (Js.slice_last 5 l) as shown eqn:Hshown. clear Hshown.
    rewrite mapi_from_length. intros _ i b H. rewrite mapi_from_nth in H.
    destruct (nth_error shown i) as [s|] eqn:E; [|discriminate].
    assert (Hi : i < length shown) by (apply nth_error_Some; congruence).
    rewrite Hnth in E. cbn [option_map] in H. injection H as <-.
    cbn [round confidence clarity Nat.add].
    split; [lia|]. split; [lia|].
    exists s. split; [|split; reflexivity].
    rewrite <- E. f_equal. lia.
Qed.

Lemma bars_are_the_last_rounds_witness :
  progressChart (repeat EMPTY_METRICS 6)
    = Some (barData (repeat EMPTY_METRICS 6)) /\
  length (barData (repeat EMPTY_METRICS 6)) = 5 /\
  progressChart [EMPTY_METRICS] = None.
Proof.
  assert (H : progressChart (repeat EMPTY_METRICS 6)
              = Some (barData (repeat EMPTY_METRICS 6))) by reflexivity.
  split; [exact H|]. split.
  - destruct (proj2 (bars_are_the_last_rounds (repeat EMPTY_METRICS 6)) _ H)
      as (_ & L & _).
    rewrite L. reflexivity.
  - apply (proj1 (bars_are_the_last_rounds [EMPTY_METRICS])). simpl. lia.
Defined.

End MorePresentation.

(* ================================================================== *)
(** * Properties of the filler clip *)

Section MoreFiller.
Import Filler.

Lemma pause_self : forall a, pause a [a] = [].
Proof. intros a. unfold pause. simpl. rewrite Nat.eqb_refl. reflexivity. Qed.

Lemma oneClip_step : forall p e,
  oneClip p -> timely p e = true -> oneClip (step p e).
Proof.
  intros p e [Hp|(a & Hp & Hc)] Ht; destruct e as [started| |b]; simpl.
  - unfold playAudio. rewrite Hp.
    assert (Q : match currentAudio p with
                | Some a => pause a []
                | None => []
                end = []) by (destruct (currentAudio p); reflexivity).
    rewrite Q. destruct started; [right; eexists; split; reflexivity|].
    left. reflexivity.
  - unfold stopAudio. destruct (currentAudio p); [|left; assumption].
    left. simpl. rewrite Hp. reflexivity.
  - left. simpl. rewrite Hp. reflexivity.
  - unfold playAudio. rewrite Hp, Hc, pause_self.
    destruct started; [right; eexists; split; reflexivity|].
    left. reflexivity.
  - unfold stopAudio. rewrite Hc. left. simpl. rewrite Hp.
    apply pause_self.
  - left. simpl. unfold timely in Ht. rewrite Hc in Ht.
    apply Nat.eqb_eq in Ht. subst b. rewrite Hp. apply pause_self.
Qed.

Lemma oneClip_run : forall es p p',
  oneClip p -> run es p = Some p' -> oneClip p'.
Proof.
  induction es as [|e es IH]; intros p p' Hp H; simpl in H.
  - injection H as <-. assumption.
  - destruct (timely p e) eqn:Ht; [|discriminate].
    eapply IH; [|eassumption]. apply oneClip_step; assumption.
Qed.

(** X21. At most one filler clip is audible, and stopAudio silences it:
    as long as the end or failure of a clip is reported while that clip is
    the current one, after any sequence of playAudio, stopAudio and such
    reports either nothing plays or only the current clip does, and after
    a further stopAudio nothing plays and no clip is current. *)
Theorem at_most_one_filler_clip : forall es p,
  run es initial = Some p ->
  (playing p = [] \/
   exists a, playing p = [a] /\ currentAudio p = Some a) /\
  playing (stopAudio p) = [] /\
  currentAudio (stopAudio p) = None /\
  stopAudio (stopAudio p) = stopAudio p.
Proof.
  intros es p H.
  assert (I : oneClip p).
  { eapply oneClip_run; [|eassumption]. left. reflexivity. }
  split; [exact I|].
  destruct I as [Hp|(a & Hp & Hc)].
  - destruct p as [[c|] pl n]; simpl in Hp; subst pl; unfold stopAudio;
      simpl; auto.
  - destruct p as [c pl n]; simpl in Hp, Hc; subst c pl. unfold stopAudio.
    simpl. rewrite Nat.eqb_refl. simpl. auto.
Qed.

Lemma at_most_one_filler_clip_witness :
  run [Play true; Play true; Finished 1; Play false; Play true] initial
    = Some {| currentAudio := Some 3; playing := [3]; created := 4 |} /\
  playing (stopAudio {| currentAudio := Some 3; playing := [3];
                        created := 4 |}) = [].
Proof.
  assert (H : run [Play true; Play true; Finished 1; Play false; Play true]
                initial
              = Some {| currentAudio := Some 3; playing := [3];
                        created := 4 |}) by reflexivity.
  split; [exact H|].
  exact (proj1 (proj2 (at_most_one_filler_clip _ _ H))).
Defined.

End MoreFiller.
